(** * A shallow embedding of the substrait-lang disassembler (disas.py)

    The Python program turns a decoded JSON plan into a textual notation.
    This development models the Python values, the string helpers, the
    structural unpackers, the name allocator and the tree serializer as
    Rocq functions, and proves properties of them. *)

From Stdlib Require Import ZArith NArith Ascii String.
From stdpp Require Import base list gmap sets pretty.

(** ** Python strings

    A Python [str] is a sequence of Unicode code points.  Code points
    above the 16-bit boundary matter to [make_string], so a string is a
    list of code points rather than a list of 8-bit characters. *)

Abbreviation pystr := (list N).

(** An ASCII literal of the source, as a Python string. *)
Definition py (s : string) : pystr :=
  (fun a => N_of_ascii a) <$> list_ascii_of_string s.

(** [sep.join(parts)]. *)
Fixpoint join (sep : pystr) (parts : list pystr) : pystr :=
  match parts with
  | [] => []
  | [p] => p
  | p :: rest => p ++ sep ++ join sep rest
  end.

(** [''.join(parts)]. *)
Definition concat_str (parts : list pystr) : pystr := mjoin parts.

(** [str(i)] and [f'{i}'] for a Python int. *)
Definition str_of_Z (z : Z) : pystr := py (pretty z).
Definition str_of_N (n : N) : pystr := py (pretty n).

(** ** Identifier formatter (disas.py, lines 4-17) *)

Module Ident.

Definition underscore : N := 95%N.

Definition is_lower (c : N) : bool := (97 <=? c)%N && (c <=? 122)%N.
Definition is_upper (c : N) : bool := (65 <=? c)%N && (c <=? 90)%N.
Definition is_digit (c : N) : bool := (48 <=? c)%N && (c <=? 57)%N.

(** The character class [[a-zA-Z0-9_]]. *)
Definition is_word (c : N) : bool :=
  is_lower c || is_upper c || is_digit c || (c =? underscore)%N.

(** The character class [[a-zA-Z_]]. *)
Definition is_word_start (c : N) : bool :=
  is_lower c || is_upper c || (c =? underscore)%N.

(** [IDENT_RE.fullmatch(name)] for [IDENT_RE = [a-zA-Z_][a-zA-Z0-9_]*]. *)
Definition is_ident (name : pystr) : bool :=
  match name with
  | [] => false
  | c :: rest => is_word_start c && forallb is_word rest
  end.

(** [UNSAFE_CHAR_RE.sub('_', name)]: every character outside the word
    class becomes an underscore. *)
Definition unsafe_char_sub (name : pystr) : pystr :=
  (fun c => if is_word c then c else underscore) <$> name.

(** [MULTI_UNDERSCORE_RE.sub('_', name)]: every maximal run of
    underscores becomes one underscore.  An underscore followed by
    another one is dropped, the last one of a run is kept. *)
Fixpoint multi_underscore_sub (name : pystr) : pystr :=
  match name with
  | [] => []
  | c :: rest =>
      match rest with
      | c' :: _ =>
          if (c =? underscore)%N && (c' =? underscore)%N
          then multi_underscore_sub rest
          else c :: multi_underscore_sub rest
      | [] => [c]
      end
  end.

(** [name.endswith('_')]. *)
Definition endswith_underscore (name : pystr) : bool :=
  match last name with
  | Some c => (c =? underscore)%N
  | None => false
  end.

(** [name[0].isnumeric()].  [make_ident] tests a character that
    [unsafe_char_sub] has left in the word class, where [str.isnumeric]
    holds exactly of the ten ASCII digits (lemma
    [IdentFacts.tested_char_is_word]); the Unicode table for other characters is not needed. *)
Definition isnumeric (c : N) : bool := is_digit c.

Definition make_ident (components : list pystr) : pystr :=
  let name := join [underscore] components in
  let name := unsafe_char_sub name in
  let name := multi_underscore_sub name in
  let name := if endswith_underscore name then removelast name else name in
  match name with
  | [] => underscore :: name
  | c :: _ => if isnumeric c then underscore :: name else name
  end.

End Ident.

(** ** String literal formatter (disas.py, lines 19-35) *)

Module Literal.

Definition hex_upper (d : N) : N :=
  if (d <? 10)%N then (48 + d)%N else (55 + d)%N.

Definition hex_lower (d : N) : N :=
  if (d <? 10)%N then (48 + d)%N else (87 + d)%N.

(** The hexadecimal digits of a positive number, most significant first. *)
Fixpoint hex_digits_pos (p : positive) (acc : list N) (fuel : nat) : list N :=
  match fuel with
  | O => acc
  | S fuel' =>
      let n := Npos p in
      match (n / 16)%N with
      | N0 => (n mod 16)%N :: acc
      | Npos q => hex_digits_pos q ((n mod 16)%N :: acc) fuel'
      end
  end.

Definition hex_digits (n : N) : list N :=
  match n with
  | N0 => [0%N]
  | Npos p => hex_digits_pos p [] (Pos.size_nat p)
  end.

(** Left padding with the digit zero up to four digits. *)
Definition pad4 (ds : list N) : list N :=
  replicate (4 - length ds) 0%N ++ ds.

(** [f'{n:04X}'] and [f'{n:04x}']. *)
Definition format_04X (n : N) : pystr := hex_upper <$> pad4 (hex_digits n).
Definition format_04x (n : N) : pystr := hex_lower <$> pad4 (hex_digits n).

Definition backslash : N := 92%N.
Definition dquote : N := 34%N.

(** The inner function [escape] of [make_string]; [c] is one character,
    [oc] its code point. *)
Definition escape (c : N) : pystr :=
  let oc := c in
  if ((32 <=? oc)%N && (oc <=? 126)%N) || (65535 <? oc)%N then [c]
  else if (c =? 8)%N then py "\b"
  else if (c =? 12)%N then py "\f"
  else if (c =? 10)%N then py "\n"
  else if (c =? 13)%N then py "\r"
  else if (c =? 9)%N then py "\t"
  else py "\u" ++ format_04X oc.

Definition make_string (contents : pystr) : pystr :=
  let contents := concat_str (escape <$> contents) in
  [dquote] ++ contents ++ [dquote].

End Literal.

(** ** Python values

    [json.loads] yields [None], booleans, ints, floats, strings, lists and
    dicts with string keys.  A dict keeps the insertion order of its keys,
    which the serializer follows, so it is an association list.  A float
    is carried as the text of its [repr]: the program only prints floats
    and tests their truth value. *)

#[warnings="-register-all"]
Inductive pyval : Type :=
| PNone
| PBool (b : bool)
| PInt (z : Z)
| PFloat (repr : pystr)
| PStr (s : pystr)
| PList (items : list pyval)
| PDict (items : list (pystr * pyval)).

(** The classes of these values, for [isinstance] and [type]. *)
Inductive pytype : Type :=
| TNoneType | TBool | TInt | TFloat | TStr | TList | TDict.

Definition type_of (v : pyval) : pytype :=
  match v with
  | PNone => TNoneType
  | PBool _ => TBool
  | PInt _ => TInt
  | PFloat _ => TFloat
  | PStr _ => TStr
  | PList _ => TList
  | PDict _ => TDict
  end.

Definition type_name (t : pytype) : pystr :=
  match t with
  | TNoneType => py "NoneType"
  | TBool => py "bool"
  | TInt => py "int"
  | TFloat => py "float"
  | TStr => py "str"
  | TList => py "list"
  | TDict => py "dict"
  end.

(** [str(type(v))], as in [<class 'int'>]. *)
Definition type_repr (t : pytype) : pystr :=
  py "<class '" ++ type_name t ++ py "'>".

(** [isinstance(v, t)]: [bool] is a subclass of [int]. *)
Definition isinstance (v : pyval) (t : pytype) : bool :=
  match t, type_of v with
  | TInt, TBool => true
  | TNoneType, TNoneType | TBool, TBool | TInt, TInt | TFloat, TFloat
  | TStr, TStr | TList, TList | TDict, TDict => true
  | _, _ => false
  end.

(** Truth value of a value, as tested by [if v:]. *)
Definition truthy (v : pyval) : bool :=
  match v with
  | PNone => false
  | PBool b => b
  | PInt z => negb (z =? 0)%Z
  | PFloat r => negb (bool_decide (r = py "0.0" \/ r = py "-0.0"))
  | PStr s => negb (bool_decide (s = []))
  | PList l => negb (bool_decide (l = []))
  | PDict d => match d with [] => false | _ => true end
  end.

(** The integer a bool or int stands for: [True == 1] and they hash alike,
    so this is the key under which a dict stores either. *)
Definition int_value (v : pyval) : Z :=
  match v with
  | PInt z => z
  | PBool true => 1%Z
  | _ => 0%Z
  end.

(** [str(v)] and [f'{v}'] for an int or a bool. *)
Definition str_of_int (v : pyval) : pystr :=
  match v with
  | PBool true => py "True"
  | PBool false => py "False"
  | _ => str_of_Z (int_value v)
  end.

(** *** Dict operations on the association list *)

Fixpoint dict_get (key : pystr) (items : list (pystr * pyval)) : option pyval :=
  match items with
  | [] => None
  | (k, v) :: rest => if bool_decide (k = key) then Some v else dict_get key rest
  end.

Definition dict_del (key : pystr) (items : list (pystr * pyval))
  : list (pystr * pyval) :=
  filter (fun kv => kv.1 <> key) items.

Definition dict_keys (items : list (pystr * pyval)) : list pystr := fst <$> items.

(** ** Exceptions and results

    [LoopBoundReached] is not a Python exception: it marks a run of the
    model in which the bound put on a [while True] loop was used up.
    [Allocator.uniquify_loop_total] shows that no run gets there. *)

Inductive exn : Type :=
| KeyError (msg : pystr)
| ValueError (msg : pystr)
| TypeError (msg : pystr)
| NameError (msg : pystr)
| AttributeError (msg : pystr)
| AssertionError
| LoopBoundReached.

Inductive result (A : Type) : Type :=
| Ok (a : A)
| Raise (e : exn).
Arguments Ok {A} a.
Arguments Raise {A} e.

Definition is_ok {A} (r : result A) : bool :=
  match r with Ok _ => true | Raise _ => false end.

Definition rbind {A B} (m : result A) (k : A -> result B) : result B :=
  match m with
  | Ok a => k a
  | Raise e => Raise e
  end.

Declare Scope result_scope.
Delimit Scope result_scope with result.
Notation "'let?' x ':=' m 'in' k" := (rbind m (fun x => k))
  (at level 10, x pattern, m at level 100, k at level 200) : result_scope.

(** ** Structural unpacker (disas.py, lines 38-60)

    The unpacker holds a reference to the object it was built from and
    pops keys out of it in place.  A step of a [with] body is a function
    from the object to an outcome and the object afterwards; the object is
    kept on failure too, because [__exit__] looks at it. *)

Module MessageUnpacker.

Definition step (A : Type) : Type := pyval -> result A * pyval.

Definition ret {A} (a : A) : step A := fun obj => (Ok a, obj).
Definition fail {A} (e : exn) : step A := fun obj => (Raise e, obj).
Definition bind {A B} (m : step A) (k : A -> step B) : step B :=
  fun obj =>
    match m obj with
    | (Ok a, obj') => k a obj'
    | (Raise e, obj') => (Raise e, obj')
    end.

(** [self.obj.pop(key, default)].  A dict removes and returns the entry,
    or returns the default; the sentinel class [Missing] that stands for
    "no default" is [None] here.  A list has a one-argument [pop], and the
    other values have none. *)
Definition obj_pop (key : pystr) (default : option pyval) (obj : pyval)
  : result (option pyval) * pyval :=
  match obj with
  | PDict items =>
      match dict_get key items with
      | Some v => (Ok (Some v), PDict (dict_del key items))
      | None => (Ok default, obj)
      end
  | PList _ => (Raise (TypeError (py "pop expected at most 1 argument, got 2")), obj)
  | _ => (Raise (AttributeError (py "'" ++ type_name (type_of obj)
                                  ++ py "' object has no attribute 'pop'")), obj)
  end.

Definition pop (err_ctxt key : pystr) (typ : pytype) (default : option pyval)
  : step pyval :=
  fun obj =>
    match obj_pop key default obj with
    | (Raise e, obj') => (Raise e, obj')
    | (Ok None, obj') =>
        (Raise (KeyError (py "missing required key " ++ key ++ py " in " ++ err_ctxt)),
         obj')
    | (Ok (Some value), obj') =>
        if negb (isinstance value typ) then
          let actual := type_of value in
          (Raise (KeyError (py "value for key " ++ key ++ py " in " ++ err_ctxt
                            ++ py " is of unexpected type " ++ type_repr actual)),
           obj')
        else (Ok value, obj')
    end.

(** [', '.join(self.obj)]: the keys of a dict, the items of a list if they
    are all strings, the characters of a string. *)
Fixpoint join_items (i : nat) (items : list pyval) : result (list pystr) :=
  match items with
  | [] => Ok []
  | PStr s :: rest =>
      match join_items (S i) rest with
      | Ok l => Ok (s :: l)
      | Raise e => Raise e
      end
  | v :: _ =>
      Raise (TypeError (py "sequence item " ++ str_of_N (N.of_nat i)
                        ++ py ": expected str instance, "
                        ++ type_name (type_of v) ++ py " found"))
  end.

Definition join_obj (obj : pyval) : result pystr :=
  match obj with
  | PDict items => Ok (join (py ", ") (dict_keys items))
  | PList items =>
      match join_items 0 items with
      | Ok l => Ok (join (py ", ") l)
      | Raise e => Raise e
      end
  | PStr s => Ok (join (py ", ") ((fun c => [c]) <$> s))
  | _ => Raise (TypeError (py "can only join an iterable"))
  end.

(** [__exit__]: the exception it raises, if any. *)
Definition exit (err_ctxt : pystr) (obj : pyval) : option exn :=
  if truthy obj then
    match join_obj obj with
    | Ok keys => Some (ValueError (py "unknown key(s) in " ++ err_ctxt
                                   ++ py ": " ++ keys))
    | Raise e => Some e
    end
  else None.

(** [with MessageUnpacker(err_ctxt, obj) as u: body].  The body gets
    [u], which stands for its context label; the object is threaded.
    [__exit__] runs whether the body returned or raised, and an exception
    it raises replaces the one of the body. *)
Definition with_unpacker {A} (err_ctxt : pystr) (obj : pyval)
    (body : pystr -> step A) : result A :=
  let (r, obj') := body err_ctxt obj in
  match exit err_ctxt obj' with
  | Some e => Raise e
  | None => r
  end.

End MessageUnpacker.

Declare Scope unpack_scope.
Delimit Scope unpack_scope with unpack.
Notation "'let!' x ':=' m 'in' k" := (MessageUnpacker.bind m (fun x => k))
  (at level 10, x pattern, m at level 100, k at level 200) : unpack_scope.

(** ** Oneof unpacker (disas.py, lines 63-82) *)

Module OneOfMessageUnpacker.

(** [len(obj)], for the values that have a length. *)
Definition py_len (obj : pyval) : result nat :=
  match obj with
  | PDict items => Ok (length items)
  | PList items => Ok (length items)
  | PStr s => Ok (length s)
  | _ => Raise (TypeError (py "object of type '" ++ type_name (type_of obj)
                           ++ py "' has no len()"))
  end.

(** [__init__]: the tag and the payload of the single entry. *)
Definition init (err_ctxt : pystr) (obj : pyval) : result (pystr * pyval) :=
  match py_len obj with
  | Raise e => Raise e
  | Ok n =>
      if negb (n =? 1)%nat then
        Raise (ValueError (py "value for oneof field " ++ err_ctxt
                           ++ py " must have a single key"))
      else
        match obj with
        | PDict ((key, val) :: _) => Ok (key, val)
        | _ => Raise (AttributeError (py "'" ++ type_name (type_of obj)
                                      ++ py "' object has no attribute 'items'"))
        end
  end.

(** [u.handle(key)]. *)
Definition handle (tag key : pystr) : bool := bool_decide (tag = key).

(** The exception of [__exit__] when no branch has claimed the tag. *)
Definition unknown_variant (err_ctxt tag : pystr) : exn :=
  ValueError (py "unknown oneof variant for " ++ err_ctxt ++ py ": " ++ tag).

End OneOfMessageUnpacker.

(** ** Run state (disas.py, lines 104-130)

    The set of issued names, the statements gathered so far and the four
    lookup tables from anchors to symbols.  They are shared by every
    closure of a run, so they are threaded through every call. *)

Record state : Type := mkState {
  used_names : gset pystr;
  output : list pystr;
  uri_lookup : gmap Z pystr;
  typ_lookup : gmap Z pystr;
  tv_lookup : gmap Z pystr;
  fn_lookup : gmap Z pystr }.

Definition initial_state : state := mkState ∅ [] ∅ ∅ ∅ ∅.

Definition M (A : Type) : Type := state -> result (A * state).

Definition mret {A} (a : A) : M A := fun st => Ok (a, st).
Definition mraise {A} (e : exn) : M A := fun _ => Raise e.
Definition mbind {A B} (m : M A) (k : A -> M B) : M B :=
  fun st =>
    match m st with
    | Ok (a, st') => k a st'
    | Raise e => Raise e
    end.
Definition lift {A} (r : result A) : M A :=
  fun st => match r with Ok a => Ok (a, st) | Raise e => Raise e end.

Declare Scope run_scope.
Delimit Scope run_scope with run.
Notation "'do' x '<-' m ';' k" := (mbind m (fun x => k))
  (at level 10, x pattern, m at level 100, k at level 200) : run_scope.
Notation "m ';;' k" := (mbind m (fun _ => k))
  (at level 100, k at level 200, right associativity) : run_scope.

(** [output.append(stmt)]. *)
Definition output_append (stmt : pystr) : M unit :=
  fun st => Ok (tt, mkState (used_names st) (output st ++ [stmt]) (uri_lookup st)
                      (typ_lookup st) (tv_lookup st) (fn_lookup st)).

Definition add_used_name (name : pystr) (st : state) : state :=
  mkState ({[name]} ∪ used_names st) (output st) (uri_lookup st)
          (typ_lookup st) (tv_lookup st) (fn_lookup st).

(** ** Name allocator (disas.py, lines 106-120) *)

Module Allocator.

(** [f'{name}_{i}']. *)
Definition suffixed (name : pystr) (i : N) : pystr :=
  name ++ py "_" ++ str_of_N i.

(** The [while True] loop, from counter [i], for at most [bound] rounds. *)
Fixpoint uniquify_loop (bound : nat) (name : pystr) (used : gset pystr) (i : N)
  : option pystr :=
  match bound with
  | O => None
  | S bound' =>
      let uniquified := suffixed name i in
      if bool_decide (uniquified ∉ used) then Some uniquified
      else uniquify_loop bound' name used (i + 1)
  end.

(** One more round than there are used names: they cannot all be taken. *)
Definition loop_bound (used : gset pystr) : nat := S (size used).

Definition uniquify (name : pystr) : M pystr :=
  fun st =>
    if negb (Ident.is_ident name) then Raise AssertionError
    else if bool_decide (name ∉ used_names st) then Ok (name, add_used_name name st)
    else
      match uniquify_loop (loop_bound (used_names st)) name (used_names st) 2 with
      | Some uniquified => Ok (uniquified, add_used_name uniquified st)
      | None => Raise LoopBoundReached
      end.

(** A run of calls, one per candidate, in order. *)
Fixpoint uniquify_all (names : list pystr) : M (list pystr) :=
  match names with
  | [] => mret []
  | name :: rest =>
      (do r <- uniquify name;
       do rs <- uniquify_all rest;
       mret (r :: rs))%run
  end.

End Allocator.

(** ** [json.dumps] of the standard library

    With the default settings ([ensure_ascii], compact) for the leaves of
    the tree serializer, and with [indent=2] for the toplevel extension
    objects. *)

Module Json.

(** One character of a string under [ensure_ascii]. *)
Definition escape_ascii (c : N) : pystr :=
  if (c =? 92)%N then py "\\"
  else if (c =? 34)%N then [92; 34]%N
  else if (32 <=? c)%N && (c <=? 126)%N then [c]
  else if (c =? 8)%N then py "\b"
  else if (c =? 12)%N then py "\f"
  else if (c =? 10)%N then py "\n"
  else if (c =? 13)%N then py "\r"
  else if (c =? 9)%N then py "\t"
  else if (c <? 65536)%N then py "\u" ++ Literal.format_04x c
  else
    let n := (c - 65536)%N in
    let s1 := N.lor 55296 (N.land (N.shiftr n 10) 1023) in
    let s2 := N.lor 56320 (N.land n 1023) in
    py "\u" ++ Literal.format_04x s1 ++ py "\u" ++ Literal.format_04x s2.

Definition dumps_str (s : pystr) : pystr :=
  [34%N] ++ concat_str (escape_ascii <$> s) ++ [34%N].

(** A float prints as its [repr], but for the three special values. *)
Definition dumps_float (repr : pystr) : pystr :=
  if bool_decide (repr = py "nan") then py "NaN"
  else if bool_decide (repr = py "inf") then py "Infinity"
  else if bool_decide (repr = py "-inf") then py "-Infinity"
  else repr.

(** [' ' * (2 * level)]. *)
Definition spaces (level : nat) : pystr := replicate (2 * level) 32%N.

(** [json.dumps(v, indent=2)], at nesting depth [level]. *)
Fixpoint dumps_indent (level : nat) (v : pyval) {struct v} : pystr :=
  match v with
  | PNone => py "null"
  | PBool true => py "true"
  | PBool false => py "false"
  | PInt z => str_of_Z z
  | PFloat r => dumps_float r
  | PStr s => dumps_str s
  | PList [] => py "[]"
  | PList items =>
      let newline_indent := [10%N] ++ spaces (S level) in
      py "[" ++ newline_indent
      ++ (fix go (items : list pyval) : pystr :=
            match items with
            | [] => []
            | [x] => dumps_indent (S level) x
            | x :: rest =>
                dumps_indent (S level) x ++ py "," ++ newline_indent ++ go rest
            end) items
      ++ [10%N] ++ spaces level ++ py "]"
  | PDict [] => py "{}"
  | PDict items =>
      let newline_indent := [10%N] ++ spaces (S level) in
      py "{" ++ newline_indent
      ++ (fix go (items : list (pystr * pyval)) : pystr :=
            match items with
            | [] => []
            | [(k, x)] => dumps_str k ++ py ": " ++ dumps_indent (S level) x
            | (k, x) :: rest =>
                dumps_str k ++ py ": " ++ dumps_indent (S level) x
                ++ py "," ++ newline_indent ++ go rest
            end) items
      ++ [10%N] ++ spaces level ++ py "}"
  end.

(** [json.dumps(v)] for a value that is neither a list nor a dict. *)
Definition dumps_leaf (v : pyval) : pystr :=
  match v with
  | PNone => py "null"
  | PBool true => py "true"
  | PBool false => py "false"
  | PInt z => str_of_Z z
  | PFloat r => dumps_float r
  | PStr s => dumps_str s
  | PList _ | PDict _ => []
  end.

End Json.

(** ** Tree serializer (disas.py, lines 204-265) *)

Module Serializer.

Import Allocator.

(** The entry of the [behavior] table for a key; the lookup table of an
    extension reference is named rather than copied. *)
Inductive table : Type := FnTable | TypTable | TvTable | UriTable.

Definition table_of (t : table) (st : state) : gmap Z pystr :=
  match t with
  | FnTable => fn_lookup st
  | TypTable => typ_lookup st
  | TvTable => tv_lookup st
  | UriTable => uri_lookup st
  end.

Inductive behavior : Type :=
| extension_ref (lookup_table : table)
| subtree (hint : pystr)
| recurse.

(** [next(iter(val)) if isinstance(val, dict) and val else 'unknown']. *)
Definition subtree_hint (val : pyval) : pystr :=
  match val with
  | PDict ((k, _) :: _) => k
  | _ => py "unknown"
  end.

Definition behavior_of (key : pystr) (val : pyval) : behavior :=
  if bool_decide (key = py "functionReference") then extension_ref FnTable
  else if bool_decide (key = py "comparisonFunctionReference") then extension_ref FnTable
  else if bool_decide (key = py "userDefinedTypeReference") then extension_ref TypTable
  else if bool_decide (key = py "typeVariationReference") then extension_ref TvTable
  else if bool_decide (key = py "input") then subtree (subtree_hint val)
  else recurse.

(** [lookup_table.get(val, str(val))] for an int or bool [val]. *)
Definition resolve (t : table) (val : pyval) (st : state) : pystr :=
  default (str_of_int val) (table_of t st !! int_value val).

(** The statement of a hoisted or toplevel binding. *)
Definition raw_statement (name text : pystr) : pystr :=
  py "raw " ++ name ++ py " = " ++ text ++ [59; 10; 10]%N.

(** The [for key, val in node.items()] loop of [dfs_helper], from the
    entries [items] on.  It carries the flag [first] and the fragment list
    [retval]; [dfs] is [dfs_helper] itself, for the nested values. *)
Definition dict_loop (dfs : pyval -> pystr -> M pystr) (ref indent : pystr)
  : list (pystr * pyval) -> bool -> list pystr -> M (list pystr) :=
  fix loop (items : list (pystr * pyval)) (first : bool) (retval : list pystr)
      {struct items} : M (list pystr) :=
    match items with
    | [] => mret retval
    | (key, val) :: rest =>
        let retval := if first then retval else retval ++ [py ","] in
        let key_str := Literal.make_string key in
        let retval :=
          retval ++ [[10%N] ++ indent ++ py "  " ++ key_str ++ py ": "] in
        match behavior_of key val with
        | extension_ref lookup_table =>
            if isinstance val TInt then
              fun st => loop rest false (retval ++ [resolve lookup_table val st]) st
            else
              (do s <- dfs val (indent ++ py "  ");
               loop rest false (retval ++ [s]))%run
        | subtree hint =>
            if isinstance val TDict then
              (do sub <- dfs val [];
               do subref <- uniquify (Ident.make_ident [ref; hint]);
               output_append (raw_statement subref sub);;
               loop rest false (retval ++ [subref]))%run
            else
              (do s <- dfs val (indent ++ py "  ");
               loop rest false (retval ++ [s]))%run
        | recurse =>
            (do s <- dfs val (indent ++ py "  ");
             loop rest false (retval ++ [s]))%run
        end
    end.

(** The [for val in node] loop of [dfs_helper]. *)
Definition list_loop (dfs : pyval -> pystr -> M pystr) (indent : pystr)
  : list pyval -> bool -> list pystr -> M (list pystr) :=
  fix loop (items : list pyval) (first : bool) (retval : list pystr)
      {struct items} : M (list pystr) :=
    match items with
    | [] => mret retval
    | val :: rest =>
        let retval := if first then retval else retval ++ [py ","] in
        let retval := retval ++ [[10%N] ++ indent ++ py "  "] in
        (do s <- dfs val (indent ++ py "  ");
         loop rest false (retval ++ [s]))%run
    end.

(** [dfs_helper(node, indent)] inside [emit_raw_json(ref, data)]. *)
Fixpoint dfs_helper (ref : pystr) (node : pyval) (indent : pystr) {struct node}
  : M pystr :=
  match node with
  | PDict items =>
      (do retval <- dict_loop (dfs_helper ref) ref indent items true [py "{"];
       mret (concat_str (retval ++ [[10%N] ++ indent ++ py "}"])))%run
  | PList items =>
      (do retval <- list_loop (dfs_helper ref) indent items true [py "["];
       mret (concat_str (retval ++ [[10%N] ++ indent ++ py "]"])))%run
  | _ => mret (Json.dumps_leaf node)
  end.

Definition emit_raw_json (ref : pystr) (data : pyval) : M unit :=
  (do root <- dfs_helper ref data [];
   output_append (raw_statement ref root))%run.

End Serializer.

(** ** The driver (disas.py, lines 85-290) *)

Module Disas.

Import MessageUnpacker Allocator Serializer.

(** The items of a value that [pop] has checked to be a list, and the
    text of one it has checked to be a string. *)
Definition list_items (v : pyval) : list pyval :=
  match v with PList l => l | _ => [] end.
Definition str_value (v : pyval) : pystr :=
  match v with PStr s => s | _ => [] end.

(** [s.rsplit(sep, maxsplit=1)[-1]]: what follows the last separator. *)
Fixpoint after_last (sep : N) (s : pystr) : pystr :=
  match s with
  | [] => []
  | c :: rest =>
      if bool_decide (sep ∈ rest) then after_last sep rest
      else if (c =? sep)%N then rest else s
  end.

(** [s.split(sep, maxsplit=1)[0]]: what precedes the first separator. *)
Fixpoint before_first (sep : N) (s : pystr) : pystr :=
  match s with
  | [] => []
  | c :: rest => if (c =? sep)%N then [] else c :: before_first sep rest
  end.

(** [for x in items: body(x)]. *)
Fixpoint for_each {A} (items : list A) (body : A -> M unit) : M unit :=
  match items with
  | [] => mret tt
  | x :: rest => (body x;; for_each rest body)%run
  end.

(** [for index, x in enumerate(items): body(index, x)], from [index]. *)
Fixpoint for_each_indexed {A} (index : N) (items : list A)
    (body : N -> A -> M unit) : M unit :=
  match items with
  | [] => mret tt
  | x :: rest => (body index x;; for_each_indexed (index + 1) rest body)%run
  end.

(** Lines 91-96. *)
Definition unpack_plan (plan : pyval)
  : result (pyval * pyval * pyval * pyval * pyval) :=
  with_unpacker (py "plan") plan (fun u =>
    let! extension_uris := pop u (py "extensionUris") TList (Some (PList [])) in
    let! extensions := pop u (py "extensions") TList (Some (PList [])) in
    let! relations := pop u (py "relations") TList (Some (PList [])) in
    let! advanced_extensions := pop u (py "advancedExtensions") TDict (Some (PDict [])) in
    let! expected_type_urls := pop u (py "expectedTypeUrls") TList (Some (PList [])) in
    ret (extension_uris, extensions, relations, advanced_extensions,
         expected_type_urls))%unpack.

(** Lines 100-102. *)
Definition unpack_advanced_extensions (advanced_extensions : pyval)
  : result (pyval * pyval) :=
  with_unpacker (py "toplevel advanced extension object") advanced_extensions
    (fun u =>
      let! toplevel_enhancement := pop u (py "enhancement") TDict (Some (PDict [])) in
      let! toplevel_optimization := pop u (py "optimization") TDict (Some (PDict [])) in
      ret (toplevel_enhancement, toplevel_optimization))%unpack.

(** [not isinstance(anchor, int) or anchor < 0]. *)
Definition illegal_anchor (anchor : pyval) : bool :=
  negb (isinstance anchor TInt) || (int_value anchor <? 0)%Z.

Definition set_lookup (t : table) (anchor : pyval) (ref : pystr) : M unit :=
  fun st =>
    let k := int_value anchor in
    Ok (tt,
        match t with
        | UriTable => mkState (used_names st) (output st) (<[k:=ref]> (uri_lookup st))
                              (typ_lookup st) (tv_lookup st) (fn_lookup st)
        | TypTable => mkState (used_names st) (output st) (uri_lookup st)
                              (<[k:=ref]> (typ_lookup st)) (tv_lookup st) (fn_lookup st)
        | TvTable => mkState (used_names st) (output st) (uri_lookup st)
                             (typ_lookup st) (<[k:=ref]> (tv_lookup st)) (fn_lookup st)
        | FnTable => mkState (used_names st) (output st) (uri_lookup st)
                             (typ_lookup st) (tv_lookup st) (<[k:=ref]> (fn_lookup st))
        end).

(** Lines 134-142: the body of the loop over [extension_uris].  The
    unpacker is built over the list [extension_uris], as the source has
    it, and not over the entry [extension_uri]. *)
Definition emit_extension_uri (extension_uris : pyval) (extension_uri : pyval)
  : M unit :=
  (do (anchor, uri) <-
     lift (with_unpacker (py "extensionUriAnchor") extension_uris (fun u =>
       let! anchor := pop u (py "extensionUriAnchor") TInt (Some (PInt 0)) in
       let! uri := pop u (py "uri") TStr None in
       ret (anchor, uri))%unpack);
   if illegal_anchor anchor then
     mraise (TypeError (py "illegal URI anchor value " ++ str_of_int anchor))
   else
     do ref <- uniquify (Ident.make_ident
                 [py "uri"; before_first 46 (after_last 47 (str_value uri))]);
     let uri := Literal.make_string (str_value uri) in
     output_append (py "using " ++ ref ++ py " = " ++ uri ++ py " = "
                    ++ str_of_int anchor ++ [59; 10]%N);;
     set_lookup UriTable anchor ref)%run.

(** Lines 148-151, 156-159 and 164-167: the three fields of a variant. *)
Definition unpack_extension (err_ctxt anchor_key : pystr) (val : pyval)
  : result (pyval * pyval * pyval) :=
  with_unpacker err_ctxt val (fun v =>
    let! uri_ref := pop v (py "extensionUriReference") TInt (Some (PInt 0)) in
    let! anchor := pop v anchor_key TInt (Some (PInt 0)) in
    let! name := pop v (py "name") TStr None in
    ret (uri_ref, anchor, name))%unpack.

(** Lines 173-178. *)
Definition ref_name_of (name : pystr) : pystr :=
  if bool_decide (name = py "+") then py "add"
  else if bool_decide (name = py "-") then py "sub"
  else if bool_decide (name = py "*") then py "mult"
  else if bool_decide (name = py "/") then py "div"
  else name.

(** Lines 146-188: the body of the loop over [extensions]. *)
Definition emit_extension (extension : pyval) : M unit :=
  (do (u_key, u_val) <- lift (OneOfMessageUnpacker.init (py "extension") extension);
   do (uri_ref, anchor, name, decl, prefix, lookup) <-
     lift (if OneOfMessageUnpacker.handle u_key (py "extensionFunction") then
             let? (uri_ref, anchor, name) :=
               unpack_extension (py "function extension") (py "functionAnchor") u_val in
             Ok (uri_ref, anchor, name, py "function", py "fn", FnTable)
           else if OneOfMessageUnpacker.handle u_key (py "extensionType") then
             let? (uri_ref, anchor, name) :=
               unpack_extension (py "type extension") (py "typeAnchor") u_val in
             Ok (uri_ref, anchor, name, py "type", py "typ", TypTable)
           else if OneOfMessageUnpacker.handle u_key (py "extensionTypeVariation") then
             let? (uri_ref, anchor, name) :=
               unpack_extension (py "type extension") (py "typeVariationAnchor") u_val in
             Ok (uri_ref, anchor, name, py "type_variation", py "tv", TvTable)
           else Raise (OneOfMessageUnpacker.unknown_variant (py "extension") u_key))%result;
   if illegal_anchor anchor then
     mraise (TypeError (py "illegal " ++ decl ++ py " anchor value "
                        ++ str_of_int anchor))
   else
     let name := str_value name in
     let ref_name := ref_name_of name in
     do ref <- uniquify (Ident.make_ident [prefix; ref_name]);
     fun st =>
       let uri_ref :=
         if (int_value uri_ref =? 0)%Z then []
         else resolve UriTable uri_ref st ++ py "::" in
       let name := if negb (Ident.is_ident name) then Literal.make_string name
                   else name in
       (output_append (decl ++ py " " ++ ref ++ py " = " ++ uri_ref ++ name
                       ++ py " = " ++ str_of_int anchor ++ [59; 10]%N);;
        set_lookup lookup anchor ref) st)%run.

(** [make_string(v)] for an entry of [expected_type_urls], which has not
    been checked to be a string: [map(escape, v)] walks the items of a
    list or the keys of a dict, and [ord] takes one-character strings. *)
Fixpoint escape_items (items : list pyval) : result pystr :=
  match items with
  | [] => Ok []
  | PStr [c] :: rest =>
      match escape_items rest with
      | Ok r => Ok (Literal.escape c ++ r)
      | Raise e => Raise e
      end
  | PStr s :: _ =>
      Raise (TypeError (py "ord() expected a character, but string of length "
                        ++ str_of_N (N.of_nat (length s)) ++ py " found"))
  | v :: _ =>
      Raise (TypeError (py "ord() expected string of length 1, but "
                        ++ type_name (type_of v) ++ py " found"))
  end.

Definition make_string_any (v : pyval) : result pystr :=
  match v with
  | PStr s => Ok (Literal.make_string s)
  | PList items =>
      (let? r := escape_items items in Ok ([34%N] ++ r ++ [34%N]))%result
  | PDict items =>
      (let? r := escape_items (PStr <$> dict_keys items) in
       Ok ([34%N] ++ r ++ [34%N]))%result
  | _ => Raise (TypeError (py "'" ++ type_name (type_of v)
                           ++ py "' object is not iterable"))
  end.

(** Lines 191-201. *)
Definition emit_proto_extensions
    (toplevel_enhancement toplevel_optimization expected_type_urls : pyval)
  : M unit :=
  if truthy toplevel_enhancement || truthy toplevel_optimization
     || truthy expected_type_urls then
    (output_append ([10%N] ++ py "// Protobuf extensions" ++ [10%N]);;
     for_each (list_items expected_type_urls) (fun expected_type_url =>
       do url <- lift (make_string_any expected_type_url);
       output_append (py "proto_extension " ++ url ++ [59; 10]%N));;
     (if truthy toplevel_enhancement then
        let data := Json.dumps_indent 0 toplevel_enhancement in
        output_append (py "enhancement " ++ data ++ [59; 10]%N)
      else mret tt);;
     (if truthy toplevel_optimization then
        let data := Json.dumps_indent 0 toplevel_optimization in
        output_append (py "optimization " ++ data ++ [59; 10]%N)
      else mret tt))%run
  else mret tt.

(** Lines 274-277. *)
Fixpoint check_names (names : list pyval) : result unit :=
  match names with
  | [] => Ok tt
  | name :: rest =>
      if negb (isinstance name TStr) then
        let actual := type_of name in
        Raise (TypeError (py "relation root relation names must be strings, found "
                          ++ type_repr actual))
      else check_names rest
  end.

(** Line 280 calls [emit_rels], a name bound nowhere in the module. *)
Definition emit_rels (rel : pyval) : result pystr :=
  Raise (NameError (py "name 'emit_rels' is not defined")).

(** Lines 268-287: the body of the loop over [relations].  When no branch
    claims the tag, [__exit__] of the oneof unpacker raises whatever the
    rest of the body did, so the run fails with that exception. *)
Definition emit_relation (index : N) (relation : pyval) : M unit :=
  (output_append ([10%N] ++ py "// Relation " ++ str_of_N index ++ [10%N]);;
   do (u_key, u_val) <-
     lift (OneOfMessageUnpacker.init (py "relation root") relation);
   do (rel, names) <-
     lift (if OneOfMessageUnpacker.handle u_key (py "root") then
             let? (rel, names) :=
               with_unpacker (py "relation root") u_val (fun v =>
                 let! rel := pop v (py "input") TInt (Some (PInt 0)) in
                 let! names := pop v (py "names") TList (Some (PInt 0)) in
                 let! _ := (fun obj => (check_names (list_items names), obj)) in
                 let names := join (py ", ")
                   (Literal.make_string <$> (str_value <$> list_items names)) in
                 let names := py "(" ++ names ++ py ")" in
                 ret (rel, names))%unpack in
             let? ref := emit_rels rel in
             Ok (rel, names)
           else if OneOfMessageUnpacker.handle u_key (py "rel") then
             let rel := u_val in
             let names := [] in
             Ok (rel, names)
           else Raise (OneOfMessageUnpacker.unknown_variant (py "relation root") u_key)
          )%result;
   do ref <- uniquify (Ident.make_ident [py "rel"; str_of_N index]);
   emit_raw_json ref rel;;
   output_append (py "execute " ++ ref ++ names ++ [59; 10]%N))%run.

(** Lines 131-188. *)
Definition emit_extensions (extension_uris extensions : pyval) : M unit :=
  if truthy extension_uris || truthy extensions then
    (output_append ([10%N] ++ py "// Type/function extensions" ++ [10%N]);;
     for_each (list_items extension_uris) (emit_extension_uri extension_uris);;
     (if truthy extension_uris then output_append [10%N] else mret tt);;
     for_each (list_items extensions) emit_extension)%run
  else mret tt.

(** [disas], from the decoded plan on: [json.loads] is the caller's. *)
Definition disas (plan : pyval) : result pystr :=
  (let? (extension_uris, extensions, relations, advanced_extensions,
         expected_type_urls) := unpack_plan plan in
   let? (toplevel_enhancement, toplevel_optimization) :=
     unpack_advanced_extensions advanced_extensions in
   let? (_, st) :=
     (emit_extensions extension_uris extensions;;
      emit_proto_extensions toplevel_enhancement toplevel_optimization
                            expected_type_urls;;
      for_each_indexed 0 (list_items relations) emit_relation)%run initial_state in
   Ok (concat_str (output st)))%result.

End Disas.

(** ** Un-escaping, as the specification words it

    This definition is not in the source.  It follows the specification:
    strip the surrounding quotes and reverse the escape rules, that is the
    short escapes for backspace, form feed, newline, carriage return and
    tab, [\uXXXX] for the other characters of the 16-bit range, and every
    other character verbatim. *)

Module SpecUnescape.

Definition hex_value (c : N) : option N :=
  if (48 <=? c)%N && (c <=? 57)%N then Some (c - 48)%N
  else if (65 <=? c)%N && (c <=? 70)%N then Some (c - 55)%N
  else None.

Definition hex4_value (a b c d : N) : option N :=
  match hex_value a, hex_value b, hex_value c, hex_value d with
  | Some x, Some y, Some z, Some w => Some (((x * 16 + y) * 16 + z) * 16 + w)%N
  | _, _, _, _ => None
  end.

Definition short_escape (c : N) : option N :=
  if (c =? 98)%N then Some 8%N
  else if (c =? 102)%N then Some 12%N
  else if (c =? 110)%N then Some 10%N
  else if (c =? 114)%N then Some 13%N
  else if (c =? 116)%N then Some 9%N
  else None.

Fixpoint unescape_body (s : pystr) : pystr :=
  match s with
  | [] => []
  | c :: rest =>
      if (c =? Literal.backslash)%N then
        match rest with
        | e :: rest1 =>
            match short_escape e with
            | Some x => x :: unescape_body rest1
            | None =>
                match rest1 with
                | a :: b :: c' :: d :: rest2 =>
                    match (if (e =? 117)%N then hex4_value a b c' d else None) with
                    | Some x => x :: unescape_body rest2
                    | None => c :: unescape_body rest
                    end
                | _ => c :: unescape_body rest
                end
            end
        | [] => [c]
        end
      else c :: unescape_body rest
  end.

(** The text between the surrounding quotes, if they are there. *)
Definition strip_quotes (lit : pystr) : option pystr :=
  match lit with
  | q :: rest =>
      if (q =? Literal.dquote)%N then
        match last rest with
        | Some q' => if (q' =? Literal.dquote)%N then Some (removelast rest) else None
        | None => None
        end
      else None
  | [] => None
  end.

Definition unescape (lit : pystr) : option pystr :=
  unescape_body <$> strip_quotes lit.

End SpecUnescape.

(** ** Predicates used by the statements below *)

Module Shapes.

Import Ident.

(** No two underscores in a row. *)
Fixpoint nodouble (s : pystr) : bool :=
  match s with
  | [] => true
  | c :: rest =>
      match rest with
      | c' :: _ => negb ((c =? underscore)%N && (c' =? underscore)%N) && nodouble rest
      | [] => true
      end
  end.

(** The shape of every result of [make_ident]. *)
Record canonical (r : pystr) : Prop := {
  canon_word : forallb is_word r = true;
  canon_nodouble : nodouble r = true;
  canon_head : exists c r', r = c :: r' /\ is_digit c = false;
  canon_tail : r = [underscore] \/ endswith_underscore r = false }.

(** The exception of [pop] for a value of the wrong kind. *)
Definition type_mismatch (err_ctxt key : pystr) (value : pyval) : exn :=
  KeyError (py "value for key " ++ key ++ py " in " ++ err_ctxt
            ++ py " is of unexpected type " ++ type_repr (type_of value)).

(** What a call for [cand] returns when [seen] tells the names in use. *)
Definition allocated (seen : pystr -> Prop) (cand r : pystr) : Prop :=
  (~ seen cand -> r = cand)
  /\ (seen cand ->
      exists i : N, (2 <= i)%N /\ r = Allocator.suffixed cand i
        /\ forall j : N, (2 <= j < i)%N -> seen (Allocator.suffixed cand j)).

(** [\uXXXX] of a 16-bit code point reads back as that code point. *)
Definition hex4_reads_back (c : N) : bool :=
  match Literal.format_04X c with
  | [a; b; c'; d] => bool_decide (SpecUnescape.hex4_value a b c' d = Some c)
  | _ => false
  end.

(** [f] holds of the [2 ^ bits] numbers from [base * 2 ^ bits] on. *)
Fixpoint all_below (bits : nat) (base : N) (f : N -> bool) : bool :=
  match bits with
  | O => f base
  | S bits' => all_below bits' (2 * base) f && all_below bits' (2 * base + 1) f
  end.

End Shapes.

(** ** The serializer with a record of its bindings

    The functions below repeat [dict_loop], [list_loop], [dfs_helper] and
    [emit_raw_json] step for step and keep, next to the text, the symbols
    that were substituted into it, and next to the state, the bindings
    emitted in order.  [TraceFacts.dfs_traced_erase] shows that dropping
    the record gives back the serializer. *)

Module Trace.

Import Allocator Serializer.

(** A statement [raw symbol = text;], with the hoisted symbols that
    were substituted into [text]. *)
Record binding : Type := mkBinding {
  b_symbol : pystr;
  b_text : pystr;
  b_refs : list pystr }.

Definition statement_of (b : binding) : pystr :=
  raw_statement (b_symbol b) (b_text b).

Definition T (A : Type) : Type := state -> result (A * state * list binding).

Definition tret {A} (a : A) : T A := fun st => Ok (a, st, []).
Definition tbind {A B} (m : T A) (k : A -> T B) : T B :=
  fun st =>
    match m st with
    | Ok (a, st1, bs1) =>
        match k a st1 with
        | Ok (b, st2, bs2) => Ok (b, st2, bs1 ++ bs2)
        | Raise e => Raise e
        end
    | Raise e => Raise e
    end.
Definition tlift {A} (m : M A) : T A :=
  fun st =>
    match m st with
    | Ok (a, st') => Ok (a, st', [])
    | Raise e => Raise e
    end.

(** [output.append] of a binding's statement. *)
Definition emit_binding (b : binding) : T unit :=
  fun st =>
    match output_append (statement_of b) st with
    | Ok (_, st') => Ok (tt, st', [b])
    | Raise e => Raise e
    end.

Definition dict_loop_traced (dfs : pyval -> pystr -> T (pystr * list pystr))
    (ref indent : pystr)
  : list (pystr * pyval) -> bool -> list pystr -> list pystr
    -> T (list pystr * list pystr) :=
  fix loop (items : list (pystr * pyval)) (first : bool) (retval : list pystr)
      (refs : list pystr) {struct items} : T (list pystr * list pystr) :=
    match items with
    | [] => tret (retval, refs)
    | (key, val) :: rest =>
        let retval := if first then retval else retval ++ [py ","] in
        let key_str := Literal.make_string key in
        let retval :=
          retval ++ [[10%N] ++ indent ++ py "  " ++ key_str ++ py ": "] in
        match behavior_of key val with
        | extension_ref lookup_table =>
            if isinstance val TInt then
              fun st =>
                loop rest false (retval ++ [resolve lookup_table val st]) refs st
            else
              tbind (dfs val (indent ++ py "  ")) (fun r =>
                loop rest false (retval ++ [r.1]) (refs ++ r.2))
        | subtree hint =>
            if isinstance val TDict then
              tbind (dfs val []) (fun r =>
              tbind (tlift (uniquify (Ident.make_ident [ref; hint]))) (fun subref =>
              tbind (emit_binding (mkBinding subref r.1 r.2)) (fun _ =>
                loop rest false (retval ++ [subref]) (refs ++ [subref]))))
            else
              tbind (dfs val (indent ++ py "  ")) (fun r =>
                loop rest false (retval ++ [r.1]) (refs ++ r.2))
        | recurse =>
            tbind (dfs val (indent ++ py "  ")) (fun r =>
              loop rest false (retval ++ [r.1]) (refs ++ r.2))
        end
    end.

Definition list_loop_traced (dfs : pyval -> pystr -> T (pystr * list pystr))
    (indent : pystr)
  : list pyval -> bool -> list pystr -> list pystr
    -> T (list pystr * list pystr) :=
  fix loop (items : list pyval) (first : bool) (retval : list pystr)
      (refs : list pystr) {struct items} : T (list pystr * list pystr) :=
    match items with
    | [] => tret (retval, refs)
    | val :: rest =>
        let retval := if first then retval else retval ++ [py ","] in
        let retval := retval ++ [[10%N] ++ indent ++ py "  "] in
        tbind (dfs val (indent ++ py "  ")) (fun r =>
          loop rest false (retval ++ [r.1]) (refs ++ r.2))
    end.

Fixpoint dfs_traced (ref : pystr) (node : pyval) (indent : pystr) {struct node}
  : T (pystr * list pystr) :=
  match node with
  | PDict items =>
      tbind (dict_loop_traced (dfs_traced ref) ref indent items true [py "{"] [])
        (fun r => tret (concat_str (r.1 ++ [[10%N] ++ indent ++ py "}"]), r.2))
  | PList items =>
      tbind (list_loop_traced (dfs_traced ref) indent items true [py "["] [])
        (fun r => tret (concat_str (r.1 ++ [[10%N] ++ indent ++ py "]"]), r.2))
  | _ => tret (Json.dumps_leaf node, [])
  end.

Definition emit_raw_json_traced (ref : pystr) (data : pyval) : T unit :=
  tbind (dfs_traced ref data []) (fun r => emit_binding (mkBinding ref r.1 r.2)).

(** Every symbol substituted into a binding's text is bound by a binding
    that comes before it in the list. *)
Definition well_ordered (bs : list binding) : Prop :=
  forall (i : nat) (b : binding) (s : pystr),
    bs !! i = Some b -> s ∈ b_refs b -> s ∈ b_symbol <$> take i bs.

(** [s] is a piece of the text [t]. *)
Definition occurs (s t : pystr) : Prop := exists l1 l2, t = l1 ++ s ++ l2.

(** Every reference recorded so far sits in a fragment gathered so far. *)
Definition held (retval : list pystr) (refs : list pystr) : Prop :=
  forall s, s ∈ refs -> exists frag, frag ∈ retval /\ occurs s frag.

(** What a piece of the run from [st] to [st'] that emitted [bs] did to
    the state: the statements were appended in order, their symbols are
    new names, distinct from each other, and now in use. *)
Record step_post (st st' : state) (bs : list binding) : Prop := {
  post_output : output st' = output st ++ (statement_of <$> bs);
  post_ordered : well_ordered bs;
  post_nodup : NoDup (b_symbol <$> bs);
  post_used : used_names st' = list_to_set (b_symbol <$> bs) ∪ used_names st;
  post_fresh : forall s, s ∈ b_symbol <$> bs -> s ∉ used_names st;
  post_occurs : forall b s, b ∈ bs -> s ∈ b_refs b -> occurs s (b_text b) }.

(** What one call of the traced serializer does, next to the plain one. *)
Definition node_post (traced : result (pystr * list pystr * state * list binding))
    (plain : result (pystr * state)) (st : state) : Prop :=
  exists text refs st' bs,
    traced = Ok (text, refs, st', bs)
    /\ plain = Ok (text, st')
    /\ step_post st st' bs
    /\ (forall s, s ∈ refs -> s ∈ b_symbol <$> bs)
    /\ (forall s, s ∈ refs -> occurs s text).

Definition node_ok (ref : pystr) (node : pyval) : Prop :=
  forall indent st,
    node_post (dfs_traced ref node indent st) (dfs_helper ref node indent st) st.

(** The same for a loop, from the fragment list [retval] and the
    reference list [refs]. *)
Definition loop_post
    (traced : result (list pystr * list pystr * state * list binding))
    (plain : result (list pystr * state))
    (retval refs : list pystr) (st : state) : Prop :=
  exists retval' refs' st' bs,
    traced = Ok (retval', refs', st', bs)
    /\ plain = Ok (retval', st')
    /\ step_post st st' bs
    /\ (forall s, s ∈ refs' -> s ∈ refs \/ s ∈ b_symbol <$> bs)
    /\ (held retval refs -> held retval' refs').

Definition loop_ok
    (traced : list pystr -> list pystr -> T (list pystr * list pystr))
    (plain : list pystr -> M (list pystr)) : Prop :=
  forall retval refs st,
    loop_post (traced retval refs st) (plain retval st) retval refs st.

End Trace.


(** ** Inputs used in the examples *)

Module Examples.
(** A dict literal with ASCII keys. *)
Definition dict (entries : list (string * pyval)) : pyval :=
  PDict ((fun kv => (py kv.1, kv.2)) <$> entries).
Definition str (s : string) : pyval := PStr (py s).

(** [{"extensionUris": [{"extensionUriAnchor": 1, "uri": "https://example.com/functions.yaml"}]}] *)
Definition plan_with_uri : pyval :=
  dict [("extensionUris",
         PList [dict [("extensionUriAnchor", PInt 1);
                      ("uri", str "https://example.com/functions.yaml")]])].

(** [{"relations": [{"root": {"input": {"read": {}}, "names": ["a"]}}]}] *)
Definition plan_with_root : pyval :=
  dict [("relations",
         PList [dict [("root", dict [("input", dict [("read", dict [])]);
                                     ("names", PList [str "a"])])]])].

(** [{"relations": [{"root": {"input": 0, "names": ["a"]}}]}] *)
Definition plan_with_int_root : pyval :=
  dict [("relations",
         PList [dict [("root", dict [("input", PInt 0);
                                     ("names", PList [str "a"])])]])].
End Examples.

(** ** Predicates and inputs of the further properties *)

Module Props.

Import Serializer.

(** A character that may stand in a literal of [make_string]: printable
    ASCII, or above the 16-bit boundary. *)
Definition literal_char (c : N) : bool :=
  ((32 <=? c)%N && (c <=? 126)%N) || (65535 <? c)%N.

Definition escape_is_literal (c : N) : bool :=
  forallb literal_char (Literal.escape c).

(** A step of a [with] body that leaves the entry of [k] where it is. *)
Definition keeps {A} (k : pystr) (m : MessageUnpacker.step A) : Prop :=
  forall items v, dict_get k items = Some v ->
    exists r items', m (PDict items) = (r, PDict items') /\ dict_get k items' = Some v.

(** The keys [unpack_plan] pops. *)
Definition plan_keys : list pystr :=
  [py "extensionUris"; py "extensions"; py "relations";
   py "advancedExtensions"; py "expectedTypeUrls"].

(** The keys popped from a function extension. *)
Definition function_keys : list pystr :=
  [py "extensionUriReference"; py "functionAnchor"; py "name"].

(** The exception of [__exit__] over the dict that is left. *)
Definition unknown_keys (err_ctxt : pystr) (left : list (pystr * pyval)) : exn :=
  ValueError (py "unknown key(s) in " ++ err_ctxt ++ py ": "
              ++ join (py ", ") (dict_keys left)).

(** No mapping of the entries stands under the key [input]. *)
Definition hoist_free_entries (hoist_free : pyval -> bool)
  : list (pystr * pyval) -> bool :=
  fix go (items : list (pystr * pyval)) : bool :=
    match items with
    | [] => true
    | (key, val) :: rest =>
        negb (bool_decide (key = py "input") && isinstance val TDict)
        && hoist_free val && go rest
    end.

(** No mapping anywhere in the value stands under the key [input]. *)
Fixpoint hoist_free (node : pyval) : bool :=
  match node with
  | PDict items => hoist_free_entries hoist_free items
  | PList items => forallb hoist_free items
  | _ => true
  end.

(** The four lookup tables are the same in both states. *)
Definition same_tables (st st' : state) : Prop :=
  uri_lookup st' = uri_lookup st /\ typ_lookup st' = typ_lookup st
  /\ tv_lookup st' = tv_lookup st /\ fn_lookup st' = fn_lookup st.

(** A value without a mapping under [input] is rendered in place. *)
Definition inline_ok (ref : pystr) (node : pyval) : Prop :=
  hoist_free node = true ->
  forall indent st, exists text, dfs_helper ref node indent st = Ok (text, st).

(** A call of the serializer leaves the lookup tables alone. *)
Definition tables_ok (ref : pystr) (node : pyval) : Prop :=
  forall indent st text st',
    dfs_helper ref node indent st = Ok (text, st') -> same_tables st st'.

(** [{"extensionFunction": {"extensionUriReference": 0, "functionAnchor":
    anchor, "name": name}}]. *)
Definition function_extension (anchor : Z) (name : pystr) : pyval :=
  PDict [(py "extensionFunction",
          PDict [(py "extensionUriReference", PInt 0);
                 (py "functionAnchor", PInt anchor);
                 (py "name", PStr name)])].

(** [{"rel": payload}]. *)
Definition rel_relation (payload : pyval) : pyval := PDict [(py "rel", payload)].

(** [{"root": {"input": input, "names": names}}]. *)
Definition root_relation (input : Z) (names : list pyval) : pyval :=
  PDict [(py "root", PDict [(py "input", PInt input); (py "names", PList names)])].

(** The comment line before a relation. *)
Definition relation_header (index : N) : pystr :=
  [10%N] ++ py "// Relation " ++ str_of_N index ++ [10%N].

(** The statement of an expected type URL. *)
Definition proto_extension_statement (url : pystr) : pystr :=
  py "proto_extension " ++ Literal.make_string url ++ [59; 10]%N.

End Props.

(** ** Induction over values, through the lists they nest *)

Section pyval_nested.
Variable P : pyval -> Prop.
Hypothesis HNone : P PNone.
Hypothesis HBool : forall b, P (PBool b).
Hypothesis HInt : forall z, P (PInt z).
Hypothesis HFloat : forall r, P (PFloat r).
Hypothesis HStr : forall s, P (PStr s).
Hypothesis HList : forall items, Forall P items -> P (PList items).
Hypothesis HDict : forall items, Forall (fun kv => P kv.2) items -> P (PDict items).

Fixpoint pyval_nested_ind (v : pyval) : P v :=
  match v with
  | PNone => HNone
  | PBool b => HBool b
  | PInt z => HInt z
  | PFloat r => HFloat r
  | PStr s => HStr s
  | PList items =>
      HList items
        ((fix go (l : list pyval) : Forall P l :=
            match l with
            | [] => @List.Forall_nil _ P
            | x :: r => @List.Forall_cons _ P x r (pyval_nested_ind x) (go r)
            end) items)
  | PDict items =>
      HDict items
        ((fix go (l : list (pystr * pyval)) : Forall (fun kv => P kv.2) l :=
            match l with
            | [] => @List.Forall_nil _ _
            | (k, x) :: r =>
                @List.Forall_cons _ (fun kv => P kv.2) (k, x) r
                  (pyval_nested_ind x) (go r)
            end) items)
  end.
End pyval_nested.

(** * Properties *)

Module IdentFacts.
Import Ident Shapes.


Lemma multi_underscore_sub_cons2 c c' r :
  multi_underscore_sub (c :: c' :: r) =
  if (c =? underscore)%N && (c' =? underscore)%N
  then multi_underscore_sub (c' :: r)
  else c :: multi_underscore_sub (c' :: r).
Proof. reflexivity. Qed.

Lemma nodouble_cons2 c c' r :
  nodouble (c :: c' :: r) =
  negb ((c =? underscore)%N && (c' =? underscore)%N) && nodouble (c' :: r).
Proof. reflexivity. Qed.

Lemma join_singleton sep (p : pystr) : join sep [p] = p.
Proof. reflexivity. Qed.

Lemma unsafe_char_sub_word s : forallb is_word (unsafe_char_sub s) = true.
Proof.
  unfold unsafe_char_sub. induction s as [|c s IH]; [done|]. cbn [fmap list_fmap forallb] in *.
  rewrite IH, andb_true_r. destruct (is_word c) eqn:E; [done|]. reflexivity.
Qed.

Lemma unsafe_char_sub_id s : forallb is_word s = true -> unsafe_char_sub s = s.
Proof.
  unfold unsafe_char_sub. induction s as [|c s IH]; [done|].
  cbn [fmap list_fmap forallb] in *. intros [Hc Hs]%andb_true_iff.
  rewrite Hc. f_equal. by apply IH.
Qed.

Lemma multi_underscore_sub_head s : head (multi_underscore_sub s) = head s.
Proof.
  induction s as [|c s IH]; [done|]. destruct s as [|c' r]; [done|].
  rewrite multi_underscore_sub_cons2.
  destruct ((c =? underscore)%N && (c' =? underscore)%N) eqn:E; [|done].
  rewrite IH. apply andb_true_iff in E as [E1 E2].
  apply N.eqb_eq in E1, E2. cbn. congruence.
Qed.

Lemma multi_underscore_sub_word s :
  forallb is_word s = true -> forallb is_word (multi_underscore_sub s) = true.
Proof.
  induction s as [|c s IH]; [done|]. destruct s as [|c' r]; [done|].
  intros H. rewrite multi_underscore_sub_cons2.
  cbn [forallb] in H. apply andb_true_iff in H as [Hc Hr].
  destruct ((c =? underscore)%N && (c' =? underscore)%N).
  - by apply IH.
  - cbn [forallb]. rewrite Hc. by apply IH.
Qed.

Lemma multi_underscore_sub_nodouble s : nodouble (multi_underscore_sub s) = true.
Proof.
  induction s as [|c s IH]; [done|]. destruct s as [|c' r]; [done|].
  rewrite multi_underscore_sub_cons2.
  destruct ((c =? underscore)%N && (c' =? underscore)%N) eqn:E; [done|].
  pose proof (multi_underscore_sub_head (c' :: r)) as Hh.
  destruct (multi_underscore_sub (c' :: r)) as [|d r'] eqn:Er; [done|].
  cbn in Hh. injection Hh as ->.
  rewrite nodouble_cons2, E. done.
Qed.

Lemma multi_underscore_sub_id s : nodouble s = true -> multi_underscore_sub s = s.
Proof.
  induction s as [|c s IH]; [done|]. destruct s as [|c' r]; [done|].
  rewrite nodouble_cons2, multi_underscore_sub_cons2. intros [E H]%andb_true_iff.
  apply negb_true_iff in E. rewrite E. f_equal. by apply IH.
Qed.

Lemma nodouble_app_l s1 s2 : nodouble (s1 ++ s2) = true -> nodouble s1 = true.
Proof.
  induction s1 as [|c s1 IH]; [done|]. destruct s1 as [|c' r]; [done|].
  cbn [app]. rewrite !nodouble_cons2. intros [E H]%andb_true_iff. rewrite E. by apply IH.
Qed.

Lemma nodouble_snoc_snoc s a b :
  nodouble (s ++ [a; b]) = true -> (a =? underscore)%N && (b =? underscore)%N = false.
Proof.
  induction s as [|c s IH].
  - cbn. intros H. rewrite andb_true_r in H. by apply negb_true_iff in H.
  - intros H. apply IH. destruct s; cbn in H |- *; by apply andb_true_iff in H as [_ H].
Qed.

Lemma is_digit_not_underscore c : is_digit c = true -> (c =? underscore)%N = false.
Proof.
  unfold is_digit, underscore. intros [H1 H2]%andb_true_iff.
  apply N.leb_le in H1, H2. apply N.eqb_neq. lia.
Qed.

Lemma word_not_digit_start c :
  is_word c = true -> is_digit c = false -> is_word_start c = true.
Proof.
  unfold is_word, is_word_start. intros H Hd. rewrite Hd in H.
  by rewrite orb_false_r in H.
Qed.

Lemma endswith_underscore_cons c s :
  s <> [] -> endswith_underscore (c :: s) = endswith_underscore s.
Proof. unfold endswith_underscore. destruct s; [done|]. by rewrite last_cons_cons. Qed.

Lemma forallb_removelast (P : N -> bool) s :
  forallb P s = true -> forallb P (removelast s) = true.
Proof.
  induction s as [|c s IH]; [done|]. destruct s as [|c' r]; [done|].
  intros [Hc Hr]%andb_true_iff. change (removelast (c :: c' :: r)) with (c :: removelast (c' :: r)).
  cbn [forallb]. rewrite Hc. by apply IH.
Qed.


(** Stripping the trailing underscore of a collapsed name. *)
Lemma strip_shape s :
  nodouble s = true ->
  let s' := if endswith_underscore s then removelast s else s in
  nodouble s' = true /\ (s' = [] \/ endswith_underscore s' = false).
Proof.
  intros Hn. cbn zeta. destruct (endswith_underscore s) eqn:E.
  - unfold endswith_underscore in E. destruct (last s) as [x|] eqn:El; [|done].
    apply last_Some in El as [l ->]. rewrite removelast_last.
    split; [by eapply nodouble_app_l|].
    destruct (last l) as [y|] eqn:Ey.
    + right. apply last_Some in Ey as [l' ->].
      rewrite <- app_assoc in Hn. cbn in Hn. apply nodouble_snoc_snoc in Hn.
      unfold endswith_underscore. rewrite last_snoc.
      rewrite E, andb_true_r in Hn. done.
    + left. by apply last_None.
  - split; [done|]. by right.
Qed.

Lemma make_ident_canonical components : canonical (make_ident components).
Proof.
  unfold make_ident.
  set (a := unsafe_char_sub (join [underscore] components)).
  assert (Ha : forallb is_word a = true) by apply unsafe_char_sub_word.
  set (b := multi_underscore_sub a).
  assert (Hb : forallb is_word b = true) by (apply multi_underscore_sub_word; exact Ha).
  assert (Hn : nodouble b = true) by apply multi_underscore_sub_nodouble.
  pose proof (strip_shape b Hn) as Hs. cbn zeta in Hs.
  assert (Hw : forallb is_word (if endswith_underscore b then removelast b else b) = true).
  { destruct (endswith_underscore b); [by apply forallb_removelast|done]. }
  revert Hs Hw.
  destruct (if endswith_underscore b then removelast b else b) as [|c s'].
  - intros _ _. split; [done|done|by exists underscore, []|by left].
  - intros [Hn' [?|He]] Hw; [done|].
    cbn [forallb] in Hw. apply andb_true_iff in Hw as [Hc Hw].
    unfold isnumeric. destruct (is_digit c) eqn:Ed.
    + split.
      * cbn [forallb]. by rewrite Hc, Hw.
      * rewrite nodouble_cons2, (is_digit_not_underscore c Ed), andb_false_r. exact Hn'.
      * by exists underscore, (c :: s').
      * right. by rewrite endswith_underscore_cons.
    + split.
      * cbn [forallb]. by rewrite Hc, Hw.
      * done.
      * by exists c, s'.
      * by right.
Qed.

Lemma canonical_is_ident r : canonical r -> is_ident r = true.
Proof.
  intros [Hw _ (c & r' & -> & Hd) _]. cbn [forallb] in Hw.
  apply andb_true_iff in Hw as [Hc Hw]. cbn. rewrite Hw, andb_true_r.
  by apply word_not_digit_start.
Qed.

Lemma canonical_fixed r : canonical r -> make_ident [r] = r.
Proof.
  intros [Hw Hn (c & r' & -> & Hd) Ht]. unfold make_ident.
  rewrite join_singleton, unsafe_char_sub_id, multi_underscore_sub_id by done.
  destruct Ht as [Ht|Ht].
  - injection Ht as -> ->. reflexivity.
  - rewrite Ht. unfold isnumeric. by rewrite Hd.
Qed.

(** The character [make_ident] hands to [isnumeric] is in the word class,
    where [str.isnumeric] and [is_digit] agree. *)
Lemma tested_char_is_word components c s :
  (let name := multi_underscore_sub (unsafe_char_sub (join [underscore] components)) in
   if endswith_underscore name then removelast name else name) = c :: s ->
  is_word c = true.
Proof.
  cbn zeta. intros H.
  assert (Hw : forallb is_word (c :: s) = true).
  { rewrite <- H. pose proof (multi_underscore_sub_word _ (unsafe_char_sub_word (join [underscore] components))).
    destruct (endswith_underscore _); [by apply forallb_removelast|done]. }
  by apply andb_true_iff in Hw as [? _].
Qed.

End IdentFacts.

(** C7.  For every tuple of components, also the empty one, empty
    strings, strings of symbols only and strings that start with a digit,
    [make_ident] returns a non-empty string that matches
    [[A-Za-z_][A-Za-z0-9_]*], and applying [make_ident] to that result
    returns it unchanged. *)
Theorem make_ident_valid_and_idempotent (components : list pystr) :
  Ident.make_ident components <> [] /\
  Ident.is_ident (Ident.make_ident components) = true /\
  Ident.make_ident [Ident.make_ident components] = Ident.make_ident components.
Proof.
  pose proof (IdentFacts.make_ident_canonical components) as Hc.
  split; [|split].
  - destruct Hc as [_ _ (c & r & -> & _) _]. done.
  - by apply IdentFacts.canonical_is_ident.
  - by apply IdentFacts.canonical_fixed.
Qed.

Module AllocatorFacts.
Import Allocator.

Lemma py_inj (s1 s2 : string) : py s1 = py s2 -> s1 = s2.
Proof.
  unfold py. intros H.
  rewrite <- (string_of_list_ascii_of_string s1), <- (string_of_list_ascii_of_string s2).
  f_equal. revert H. generalize (list_ascii_of_string s1) (list_ascii_of_string s2).
  induction l as [|a l IH]; intros [|b l']; intros H; try discriminate; [done|].
  injection H as Hab Hl. f_equal; [|by apply IH].
  by rewrite <- (ascii_N_embedding a), <- (ascii_N_embedding b), Hab.
Qed.

Lemma suffixed_inj name i j : suffixed name i = suffixed name j -> i = j.
Proof.
  unfold suffixed, str_of_N. intros H.
  apply app_inv_head, app_inv_head, py_inj in H. by apply (inj pretty) in H.
Qed.

Lemma uniquify_loop_some bound name used i r :
  uniquify_loop bound name used i = Some r ->
  exists k : nat, (k < bound)%nat /\ r = suffixed name (i + N.of_nat k)
    /\ (r ∉ used)
    /\ forall j : nat, (j < k)%nat -> suffixed name (i + N.of_nat j) ∈ used.
Proof.
  revert i. induction bound as [|bound IH]; intros i; [done|].
  cbn [uniquify_loop]. destruct (bool_decide (suffixed name i ∉ used)) eqn:E.
  - intros [= <-]. exists 0%nat. rewrite N.add_0_r.
    apply bool_decide_eq_true in E. repeat split; [lia|done|lia].
  - intros H. apply IH in H as (k & Hk & -> & Hr & Hj).
    apply bool_decide_eq_false in E.
    exists (S k). repeat split.
    + lia.
    + f_equal. lia.
    + done.
    + intros [|j] Hlt.
      * rewrite N.add_0_r. destruct (decide (suffixed name i ∈ used)); [done|]. by destruct E.
      * replace (i + N.of_nat (S j))%N with (i + 1 + N.of_nat j)%N by lia.
        apply Hj. lia.
Qed.

Lemma uniquify_loop_none bound name used i :
  uniquify_loop bound name used i = None ->
  forall k : nat, (k < bound)%nat -> suffixed name (i + N.of_nat k) ∈ used.
Proof.
  revert i. induction bound as [|bound IH]; intros i; [intros _ k Hk; lia|].
  cbn [uniquify_loop]. destruct (bool_decide (suffixed name i ∉ used)) eqn:E; [done|].
  intros H [|k] Hk.
  - rewrite N.add_0_r. apply bool_decide_eq_false in E.
    destruct (decide (suffixed name i ∈ used)); [done|]. by destruct E.
  - replace (i + N.of_nat (S k))%N with (i + 1 + N.of_nat k)%N by lia.
    apply (IH _ H). lia.
Qed.

(** The bound of the model is never reached: among [size used + 1]
    distinct suffixed names one is unused. *)
Lemma uniquify_loop_total name used i :
  is_Some (uniquify_loop (loop_bound used) name used i).
Proof.
  destruct (uniquify_loop (loop_bound used) name used i) eqn:E; [by eexists|].
  exfalso. pose proof (uniquify_loop_none _ _ _ _ E) as Hall.
  set (cands := (fun k : nat => suffixed name (i + N.of_nat k)) <$> seq 0 (loop_bound used)).
  assert (Hnd : NoDup cands).
  { apply NoDup_fmap_2_strong; [|apply NoDup_seq].
    intros x y _ _ Hxy. apply suffixed_inj in Hxy. lia. }
  assert (Hsub : list_to_set cands ⊆ used).
  { intros x Hx. apply elem_of_list_to_set, list_elem_of_fmap in Hx as (k & -> & Hk).
    apply elem_of_seq in Hk. apply Hall. lia. }
  apply subseteq_size in Hsub. rewrite size_list_to_set in Hsub by done.
  unfold cands in Hsub. rewrite length_fmap, length_seq in Hsub.
  unfold loop_bound in Hsub. lia.
Qed.

(** One call. *)
Lemma uniquify_spec name st :
  Ident.is_ident name = true ->
  exists r,
    uniquify name st = Ok (r, add_used_name r st)
    /\ (r ∉ used_names st)
    /\ (name ∉ used_names st -> r = name)
    /\ (name ∈ used_names st ->
        exists i : N, (2 <= i)%N /\ r = suffixed name i
          /\ forall j : N, (2 <= j < i)%N -> suffixed name j ∈ used_names st).
Proof.
  intros Hid. unfold uniquify. rewrite Hid. cbn [negb].
  destruct (bool_decide (name ∉ used_names st)) eqn:E.
  - apply bool_decide_eq_true in E. exists name. by repeat split.
  - apply bool_decide_eq_false in E.
    destruct (uniquify_loop_total name (used_names st) 2) as [r Hr].
    rewrite Hr. exists r.
    apply uniquify_loop_some in Hr as (k & _ & -> & Hfresh & Hused).
    repeat split; [done|done|].
    intros _. exists (2 + N.of_nat k)%N. repeat split; [lia|].
    intros j Hj. replace j with (2 + N.of_nat (N.to_nat (j - 2)))%N by lia.
    apply Hused. lia.
Qed.

Lemma used_names_add r st : used_names (add_used_name r st) = {[r]} ∪ used_names st.
Proof. reflexivity. Qed.

End AllocatorFacts.

Module AllocatorRun.
Import Allocator Shapes AllocatorFacts.


Lemma allocated_ext (seen seen' : pystr -> Prop) cand r :
  (forall x, seen x <-> seen' x) -> allocated seen cand r -> allocated seen' cand r.
Proof.
  intros Heq [H1 H2]. split.
  - intros Hn. apply H1. by rewrite Heq.
  - intros Hs. apply Heq, H2 in Hs as (i & Hi & -> & Hj).
    exists i. repeat split; [done|]. intros j Hlt. by apply Heq, Hj.
Qed.

Lemma uniquify_all_spec cands : forall st,
  Forall (fun c => Ident.is_ident c = true) cands ->
  exists names st',
    uniquify_all cands st = Ok (names, st')
    /\ length names = length cands
    /\ NoDup names
    /\ (forall r, r ∈ names -> r ∉ used_names st)
    /\ forall (k : nat) cand r,
         cands !! k = Some cand -> names !! k = Some r ->
         allocated (fun x => x ∈ used_names st \/ x ∈ take k names) cand r.
Proof.
  induction cands as [|c cands IH]; intros st Hall.
  - exists [], st. repeat split; [constructor|by intros r Hr%elem_of_nil|done..].
  - apply Forall_cons in Hall as [Hc Hall].
    destruct (uniquify_spec c st Hc) as (r & Hr & Hfresh & Hnew & Hold).
    destruct (IH (add_used_name r st) Hall) as (names & st' & Hrun & Hlen & Hnd & Hdisj & Hk).
    exists (r :: names), st'. split; [|split; [|split; [|split]]].
    + cbn [uniquify_all]. unfold mbind at 1. rewrite Hr.
      unfold mbind at 1. rewrite Hrun. reflexivity.
    + cbn. by rewrite Hlen.
    + constructor; [|done]. intros Hin. apply Hdisj in Hin.
      rewrite used_names_add in Hin. set_solver.
    + intros x [->|Hx]%elem_of_cons; [done|].
      apply Hdisj in Hx. rewrite used_names_add in Hx. set_solver.
    + intros [|k] cand x Hcand Hx; cbn in Hcand, Hx.
      * injection Hcand as <-. injection Hx as <-. cbn [take]. split.
        -- intros Hn. apply Hnew. intros Hu. apply Hn. by left.
        -- intros [Hs|Hs%elem_of_nil]; [|done].
           destruct (Hold Hs) as (i & Hi & -> & Hj). exists i.
           repeat split; [done|]. intros j Hlt. left. by apply Hj.
      * eapply allocated_ext; [|by apply (Hk k cand x)].
        intros y. cbn [take].
        rewrite used_names_add, elem_of_cons, elem_of_union, elem_of_singleton. tauto.
Qed.

End AllocatorRun.

(** C8.  In a run that starts with no name in use, for any sequence of
    valid-identifier candidates, repeated or not, every call of [uniquify]
    returns, the names returned are pairwise distinct, and each one is the
    candidate itself if no earlier call returned it, and otherwise the
    candidate with the first suffix [_2], [_3], ... that no earlier call
    returned. *)
Theorem uniquify_never_repeats (candidates : list pystr) :
  Forall (fun c => Ident.is_ident c = true) candidates ->
  exists names st',
    Allocator.uniquify_all candidates initial_state = Ok (names, st')
    /\ length names = length candidates
    /\ NoDup names
    /\ forall (k : nat) cand r,
         candidates !! k = Some cand -> names !! k = Some r ->
         Shapes.allocated (fun x => x ∈ take k names) cand r.
Proof.
  intros Hall.
  destruct (AllocatorRun.uniquify_all_spec candidates initial_state Hall)
    as (names & st' & Hrun & Hlen & Hnd & _ & Hk).
  exists names, st'. split; [done|]. split; [done|]. split; [done|].
  intros k cand r Hc Hr. eapply AllocatorRun.allocated_ext; [|by apply (Hk k cand r)].
  intros x. cbn. rewrite elem_of_empty. tauto.
Qed.

Lemma uniquify_never_repeats_witness :
  Forall (fun c => Ident.is_ident c = true) [py "fn_and"; py "fn_and"; py "fn_and_2"] /\
  exists names st',
    Allocator.uniquify_all [py "fn_and"; py "fn_and"; py "fn_and_2"] initial_state
      = Ok (names, st')
    /\ length names = 3%nat
    /\ NoDup names
    /\ forall (k : nat) cand r,
         [py "fn_and"; py "fn_and"; py "fn_and_2"] !! k = Some cand ->
         names !! k = Some r ->
         Shapes.allocated (fun x => x ∈ take k names) cand r.
Proof.
  assert (H : Forall (fun c => Ident.is_ident c = true)
                [py "fn_and"; py "fn_and"; py "fn_and_2"]).
  { repeat constructor. }
  split; [exact H|].
  exact (uniquify_never_repeats [py "fn_and"; py "fn_and"; py "fn_and_2"] H).
Defined.

Example uniquify_run_example :
  (fun r => match r with Ok (names, _) => Some names | Raise _ => None end)
    (Allocator.uniquify_all [py "fn_and"; py "fn_and"; py "fn_and_2"; py "fn_and"]
       initial_state)
  = Some [py "fn_and"; py "fn_and_2"; py "fn_and_2_2"; py "fn_and_3"].
Proof. vm_compute. reflexivity. Qed.

Module UnpackerFacts.
Import MessageUnpacker Shapes.

Lemma dict_get_del key items : dict_get key (dict_del key items) = None.
Proof.
  unfold dict_del. induction items as [|[k v] items IH]; [done|].
  rewrite filter_cons. cbn [fst]. destruct (decide (k <> key)) as [Hk|Hk].
  - cbn [dict_get]. by rewrite bool_decide_eq_false_2.
  - exact IH.
Qed.

Lemma dict_del_absent key items : dict_get key items = None -> dict_del key items = items.
Proof.
  unfold dict_del. induction items as [|[k v] items IH]; [done|].
  cbn [dict_get]. rewrite filter_cons. cbn [fst].
  destruct (bool_decide (k = key)) eqn:E; [done|]. intros H.
  apply bool_decide_eq_false in E. rewrite decide_True by done. f_equal. by apply IH.
Qed.


End UnpackerFacts.

Import MessageUnpacker Shapes UnpackerFacts.

(** ** The structural unpacker *)

(** C5, counterexample.  The key [names] is absent, the default [0] is
    supplied, the expected kind is list: [pop] raises, as line 273 of the
    source has it. *)
Lemma pop_default_of_other_kind_raises :
  dict_get (py "names") [] = None /\
  pop (py "relation root") (py "names") TList (Some (PInt 0)) (PDict [])
  = (Raise (type_mismatch (py "relation root") (py "names") (PInt 0)), PDict []).
Proof. split; reflexivity. Qed.

(** C5, amended.  When the key is absent from the mapping and a default is
    supplied, the mapping is left unchanged, and [pop] returns the default
    when the default is of the expected kind; a default of another kind
    is reported like a value of the wrong kind. *)
Theorem pop_absent_with_default (err_ctxt key : pystr) (typ : pytype)
    (default : pyval) (items : list (pystr * pyval)) :
  dict_get key items = None ->
  pop err_ctxt key typ (Some default) (PDict items)
  = (if isinstance default typ then Ok default
     else Raise (type_mismatch err_ctxt key default),
     PDict items).
Proof.
  intros H. unfold pop, obj_pop. rewrite H.
  by destruct (isinstance default typ).
Qed.

Lemma pop_absent_with_default_witness :
  dict_get (py "relations") [(py "extensions", PList [])] = None
  /\ pop (py "plan") (py "relations") TList (Some (PList []))
         (PDict [(py "extensions", PList [])])
     = (Ok (PList []), PDict [(py "extensions", PList [])]).
Proof.
  split; [reflexivity|].
  apply (pop_absent_with_default (py "plan") (py "relations") TList (PList [])
           [(py "extensions", PList [])]).
  reflexivity.
Defined.

(** C9.  When the key is present in the mapping with a value of the wrong
    kind, [pop] raises the type-mismatch error and the mapping it leaves
    behind has lost the key: the entry was removed before the check, so
    the failed call has changed the mapping. *)
Theorem pop_wrong_kind_removes_key (err_ctxt key : pystr) (typ : pytype)
    (default : option pyval) (items : list (pystr * pyval)) (value : pyval) :
  dict_get key items = Some value ->
  isinstance value typ = false ->
  pop err_ctxt key typ default (PDict items)
  = (Raise (type_mismatch err_ctxt key value), PDict (dict_del key items))
  /\ dict_get key (dict_del key items) = None
  /\ PDict (dict_del key items) <> PDict items.
Proof.
  intros Hget Hty. split; [|split].
  - unfold pop, obj_pop. by rewrite Hget, Hty.
  - apply dict_get_del.
  - intros [= Heq]. pose proof (dict_get_del key items) as Hd.
    rewrite Heq in Hd. congruence.
Qed.

Lemma pop_wrong_kind_removes_key_witness :
  dict_get (py "input") [(py "input", PDict []); (py "names", PList [])]
  = Some (PDict [])
  /\ isinstance (PDict []) TInt = false
  /\ pop (py "relation root") (py "input") TInt (Some (PInt 0))
         (PDict [(py "input", PDict []); (py "names", PList [])])
     = (Raise (type_mismatch (py "relation root") (py "input") (PDict [])),
        PDict [(py "names", PList [])]).
Proof.
  split; [reflexivity|]. split; [reflexivity|].
  apply (pop_wrong_kind_removes_key (py "relation root") (py "input") TInt
           (Some (PInt 0)) [(py "input", PDict []); (py "names", PList [])] (PDict []));
    reflexivity.
Defined.

(** C10.  When the value stored at the key is [True] or [False], [pop]
    with the int kind returns it and raises nothing, because a bool is an
    instance of int; the anchor check that follows lets it through too. *)
Theorem pop_int_accepts_bool (err_ctxt key : pystr) (default : option pyval)
    (items : list (pystr * pyval)) (b : bool) :
  dict_get key items = Some (PBool b) ->
  pop err_ctxt key TInt default (PDict items)
  = (Ok (PBool b), PDict (dict_del key items))
  /\ Disas.illegal_anchor (PBool b) = false
  /\ isinstance (PBool b) TInt = true.
Proof.
  intros Hget. split; [|split].
  - unfold pop, obj_pop. by rewrite Hget.
  - by destruct b.
  - reflexivity.
Qed.

Lemma pop_int_accepts_bool_witness :
  dict_get (py "functionAnchor")
    [(py "functionAnchor", PBool true); (py "name", PStr (py "and"))]
  = Some (PBool true)
  /\ pop (py "function extension") (py "functionAnchor") TInt (Some (PInt 0))
         (PDict [(py "functionAnchor", PBool true); (py "name", PStr (py "and"))])
     = (Ok (PBool true), PDict [(py "name", PStr (py "and"))]).
Proof.
  split; [reflexivity|].
  apply (pop_int_accepts_bool (py "function extension") (py "functionAnchor")
           (Some (PInt 0))
           [(py "functionAnchor", PBool true); (py "name", PStr (py "and"))] true).
  reflexivity.
Defined.
Module TraceFacts.
Import Allocator Serializer Trace.

Lemma dict_loop_cons dfs ref indent key val rest first retval :
  dict_loop dfs ref indent ((key, val) :: rest) first retval =
  let retval1 := (if first then retval else retval ++ [py ","])
                 ++ [[10%N] ++ indent ++ py "  " ++ Literal.make_string key ++ py ": "] in
  match behavior_of key val with
  | extension_ref lookup_table =>
      if isinstance val TInt then
        fun st => dict_loop dfs ref indent rest false
                    (retval1 ++ [resolve lookup_table val st]) st
      else
        mbind (dfs val (indent ++ py "  ")) (fun s =>
          dict_loop dfs ref indent rest false (retval1 ++ [s]))
  | subtree hint =>
      if isinstance val TDict then
        mbind (dfs val []) (fun sub =>
        mbind (uniquify (Ident.make_ident [ref; hint])) (fun subref =>
        mbind (output_append (raw_statement subref sub)) (fun _ =>
          dict_loop dfs ref indent rest false (retval1 ++ [subref]))))
      else
        mbind (dfs val (indent ++ py "  ")) (fun s =>
          dict_loop dfs ref indent rest false (retval1 ++ [s]))
  | recurse =>
      mbind (dfs val (indent ++ py "  ")) (fun s =>
        dict_loop dfs ref indent rest false (retval1 ++ [s]))
  end.
Proof. reflexivity. Qed.

Lemma dict_loop_traced_cons dfs ref indent key val rest first retval refs :
  dict_loop_traced dfs ref indent ((key, val) :: rest) first retval refs =
  let retval1 := (if first then retval else retval ++ [py ","])
                 ++ [[10%N] ++ indent ++ py "  " ++ Literal.make_string key ++ py ": "] in
  match behavior_of key val with
  | extension_ref lookup_table =>
      if isinstance val TInt then
        fun st => dict_loop_traced dfs ref indent rest false
                    (retval1 ++ [resolve lookup_table val st]) refs st
      else
        tbind (dfs val (indent ++ py "  ")) (fun r =>
          dict_loop_traced dfs ref indent rest false (retval1 ++ [r.1]) (refs ++ r.2))
  | subtree hint =>
      if isinstance val TDict then
        tbind (dfs val []) (fun r =>
        tbind (tlift (uniquify (Ident.make_ident [ref; hint]))) (fun subref =>
        tbind (emit_binding (mkBinding subref r.1 r.2)) (fun _ =>
          dict_loop_traced dfs ref indent rest false (retval1 ++ [subref])
            (refs ++ [subref]))))
      else
        tbind (dfs val (indent ++ py "  ")) (fun r =>
          dict_loop_traced dfs ref indent rest false (retval1 ++ [r.1]) (refs ++ r.2))
  | recurse =>
      tbind (dfs val (indent ++ py "  ")) (fun r =>
        dict_loop_traced dfs ref indent rest false (retval1 ++ [r.1]) (refs ++ r.2))
  end.
Proof. reflexivity. Qed.

Lemma list_loop_cons dfs indent val rest first retval :
  list_loop dfs indent (val :: rest) first retval =
  mbind (dfs val (indent ++ py "  ")) (fun s =>
    list_loop dfs indent rest false
      (((if first then retval else retval ++ [py ","])
        ++ [[10%N] ++ indent ++ py "  "]) ++ [s])).
Proof. reflexivity. Qed.

Lemma list_loop_traced_cons dfs indent val rest first retval refs :
  list_loop_traced dfs indent (val :: rest) first retval refs =
  tbind (dfs val (indent ++ py "  ")) (fun r =>
    list_loop_traced dfs indent rest false
      (((if first then retval else retval ++ [py ","])
        ++ [[10%N] ++ indent ++ py "  "]) ++ [r.1]) (refs ++ r.2)).
Proof. reflexivity. Qed.

Lemma dfs_helper_dict ref items indent :
  dfs_helper ref (PDict items) indent =
  mbind (dict_loop (dfs_helper ref) ref indent items true [py "{"]) (fun retval =>
    mret (concat_str (retval ++ [[10%N] ++ indent ++ py "}"]))).
Proof. reflexivity. Qed.

Lemma dfs_helper_list ref items indent :
  dfs_helper ref (PList items) indent =
  mbind (list_loop (dfs_helper ref) indent items true [py "["]) (fun retval =>
    mret (concat_str (retval ++ [[10%N] ++ indent ++ py "]"]))).
Proof. reflexivity. Qed.

Lemma dfs_traced_dict ref items indent :
  dfs_traced ref (PDict items) indent =
  tbind (dict_loop_traced (dfs_traced ref) ref indent items true [py "{"] [])
    (fun r => tret (concat_str (r.1 ++ [[10%N] ++ indent ++ py "}"]), r.2)).
Proof. reflexivity. Qed.

Lemma dfs_traced_list ref items indent :
  dfs_traced ref (PList items) indent =
  tbind (list_loop_traced (dfs_traced ref) indent items true [py "["] [])
    (fun r => tret (concat_str (r.1 ++ [[10%N] ++ indent ++ py "]"]), r.2)).
Proof. reflexivity. Qed.

Lemma well_ordered_nil : well_ordered [].
Proof. intros i b s H. by rewrite lookup_nil in H. Qed.

Lemma well_ordered_app bs1 bs2 :
  well_ordered bs1 -> well_ordered bs2 -> well_ordered (bs1 ++ bs2).
Proof.
  intros H1 H2 i b s Hb Hs.
  destruct (decide (i < length bs1)%nat) as [Hlt|Hge].
  - rewrite lookup_app_l in Hb by done.
    rewrite take_app_le by lia. by eapply H1.
  - rewrite lookup_app_r in Hb by lia.
    rewrite take_app_ge by lia. rewrite fmap_app, elem_of_app. right.
    by eapply H2.
Qed.

Lemma well_ordered_snoc bs b :
  well_ordered bs -> (forall s, s ∈ b_refs b -> s ∈ b_symbol <$> bs) ->
  well_ordered (bs ++ [b]).
Proof.
  intros H1 H2 i b' s Hb Hs.
  destruct (decide (i < length bs)%nat) as [Hlt|Hge].
  - rewrite lookup_app_l in Hb by done.
    rewrite take_app_le by lia. by eapply H1.
  - rewrite lookup_app_r in Hb by lia.
    destruct (i - length bs)%nat as [|n] eqn:E; [|by rewrite lookup_cons, lookup_nil in Hb].
    injection Hb as <-. rewrite take_app_ge by lia. rewrite E. cbn [take].
    rewrite app_nil_r. by apply H2.
Qed.

Lemma occurs_refl s : occurs s s.
Proof. exists [], []. by rewrite app_nil_r. Qed.

Lemma occurs_concat s frag (retval : list pystr) :
  frag ∈ retval -> occurs s frag -> occurs s (concat_str retval).
Proof.
  intros (r1 & r2 & ->)%list_elem_of_split (l1 & l2 & ->).
  exists (concat_str r1 ++ l1), (l2 ++ concat_str r2).
  unfold concat_str. rewrite join_app. cbn [mjoin list_join].
  by rewrite <- !app_assoc.
Qed.

Lemma held_nil retval : held retval [].
Proof. by intros s Hs%elem_of_nil. Qed.

Lemma held_mono retval retval' refs :
  (forall frag, frag ∈ retval -> frag ∈ retval') -> held retval refs -> held retval' refs.
Proof. intros Hsub H s Hs. destruct (H s Hs) as (frag & Hf & Ho). eauto. Qed.

Lemma held_snoc retval refs frag rs :
  held retval refs -> (forall s, s ∈ rs -> occurs s frag) ->
  held (retval ++ [frag]) (refs ++ rs).
Proof.
  intros H Hrs s [Hs|Hs]%elem_of_app.
  - destruct (H s Hs) as (f & Hf & Ho). exists f. split; [|done].
    apply elem_of_app. by left.
  - exists frag. split; [|by apply Hrs].
    apply elem_of_app. right. by apply list_elem_of_singleton.
Qed.

Lemma step_post_refl st : step_post st st [].
Proof.
  split; cbn [fmap list_fmap].
  - by rewrite app_nil_r.
  - apply well_ordered_nil.
  - constructor.
  - apply set_eq. intros x. rewrite elem_of_union, elem_of_list_to_set, elem_of_nil. tauto.
  - by intros s Hs%elem_of_nil.
  - by intros b s Hb%elem_of_nil.
Qed.

Lemma step_post_app st st1 st2 bs1 bs2 :
  step_post st st1 bs1 -> step_post st1 st2 bs2 -> step_post st st2 (bs1 ++ bs2).
Proof.
  intros [Ho1 Hw1 Hn1 Hu1 Hf1 Hc1] [Ho2 Hw2 Hn2 Hu2 Hf2 Hc2]. split.
  - by rewrite Ho2, Ho1, fmap_app, app_assoc.
  - by apply well_ordered_app.
  - rewrite fmap_app. apply NoDup_app. split; [done|]. split; [|done].
    intros s Hs1 Hs2. apply Hf2 in Hs2. apply Hs2. rewrite Hu1.
    apply elem_of_union. left. by apply elem_of_list_to_set.
  - rewrite Hu2, Hu1, fmap_app. apply set_eq. intros x.
    rewrite !elem_of_union, !elem_of_list_to_set, elem_of_app. tauto.
  - intros s. rewrite fmap_app. intros [Hs|Hs]%elem_of_app; [by apply Hf1|].
    apply Hf2 in Hs. intros Hin. apply Hs. rewrite Hu1.
    apply elem_of_union. by right.
  - intros b s [Hb|Hb]%elem_of_app; [by apply Hc1|by apply Hc2].
Qed.

Lemma output_append_ok stmt st :
  exists st', output_append stmt st = Ok (tt, st')
    /\ output st' = output st ++ [stmt]
    /\ used_names st' = used_names st.
Proof. by eexists. Qed.

Lemma uniquify_make_ident components st :
  exists r, uniquify (Ident.make_ident components) st = Ok (r, add_used_name r st)
    /\ r ∉ used_names st.
Proof.
  destruct (AllocatorFacts.uniquify_spec (Ident.make_ident components) st)
    as (r & Hr & Hfresh & _).
  - apply IdentFacts.canonical_is_ident, IdentFacts.make_ident_canonical.
  - by exists r.
Qed.

Lemma loop_post_weaken traced plain retval retval1 refs st :
  loop_post traced plain retval1 refs st ->
  (held retval refs -> held retval1 refs) ->
  loop_post traced plain retval refs st.
Proof.
  intros (retval' & refs' & st' & bs & Ht & Hp & Hs & Hr & Hh) Hw.
  exists retval', refs', st', bs. repeat (split; [done|]). auto.
Qed.

(** A nested value rendered in place, then the rest of the loop. *)
Lemma recurse_step_ok ref val indent' traced_rest plain_rest :
  node_ok ref val ->
  loop_ok traced_rest plain_rest ->
  loop_ok
    (fun retval refs =>
       tbind (dfs_traced ref val indent')
         (fun r => traced_rest (retval ++ [r.1]) (refs ++ r.2)))
    (fun retval =>
       mbind (dfs_helper ref val indent') (fun s => plain_rest (retval ++ [s]))).
Proof.
  intros Hval Hrest retval refs st.
  destruct (Hval indent' st) as (text & rs & st1 & bs1 & Ht & Hp & Hs & Hr & Ho).
  destruct (Hrest (retval ++ [text]) (refs ++ rs) st1)
    as (retval' & refs' & st' & bs2 & Ht2 & Hp2 & Hs2 & Hr2 & Hh2).
  exists retval', refs', st', (bs1 ++ bs2). split; [|split; [|split; [|split]]].
  - unfold tbind. rewrite Ht. cbn [fst snd]. by rewrite Ht2.
  - unfold mbind. rewrite Hp. by rewrite Hp2.
  - by eapply step_post_app.
  - intros s Hin. rewrite fmap_app, elem_of_app.
    destruct (Hr2 s Hin) as [[?|?]%elem_of_app|?];
      [by left|right; left; by apply Hr|by right; right].
  - intros Hh. apply Hh2. by apply held_snoc.
Qed.

(** A mapping under [input]: rendered, bound to a fresh symbol, and the
    symbol put in its place. *)
Lemma hoist_step_ok ref val hint traced_rest plain_rest :
  node_ok ref val ->
  loop_ok traced_rest plain_rest ->
  loop_ok
    (fun retval refs =>
       tbind (dfs_traced ref val []) (fun r =>
       tbind (tlift (uniquify (Ident.make_ident [ref; hint]))) (fun subref =>
       tbind (emit_binding (mkBinding subref r.1 r.2)) (fun _ =>
         traced_rest (retval ++ [subref]) (refs ++ [subref])))))
    (fun retval =>
       mbind (dfs_helper ref val []) (fun sub =>
       mbind (uniquify (Ident.make_ident [ref; hint])) (fun subref =>
       mbind (output_append (raw_statement subref sub)) (fun _ =>
         plain_rest (retval ++ [subref]))))).
Proof.
  intros Hval Hrest retval refs st.
  destruct (Hval [] st) as (sub & rs & st1 & bs1 & Ht & Hp & Hs & Hr & Ho).
  destruct (uniquify_make_ident [ref; hint] st1) as (subref & Hu & Hfresh).
  set (b := mkBinding subref sub rs).
  destruct (output_append_ok (statement_of b) (add_used_name subref st1))
    as (st2 & Happ & Hout2 & Hused2).
  destruct (Hrest (retval ++ [subref]) (refs ++ [subref]) st2)
    as (retval' & refs' & st' & bs2 & Ht2 & Hp2 & Hs2 & Hr2 & Hh2).
  assert (Hb : step_post st st2 (bs1 ++ [b])).
  { destruct Hs as [Ho1 Hw1 Hn1 Hu1 Hf1 Hc1]. split.
    - rewrite Hout2. cbn [output add_used_name]. rewrite Ho1, fmap_app.
      by rewrite <- app_assoc.
    - by apply well_ordered_snoc.
    - rewrite fmap_app. apply NoDup_app. split; [done|]. split; [|apply NoDup_singleton].
      intros s Hs1 ->%list_elem_of_singleton. apply Hfresh. rewrite Hu1.
      apply elem_of_union. left. by apply elem_of_list_to_set.
    - rewrite Hused2. cbn [used_names add_used_name]. rewrite Hu1, fmap_app.
      apply set_eq. intros x.
      cbn [fmap list_fmap b_symbol b].
      rewrite !elem_of_union, !elem_of_list_to_set, elem_of_app, elem_of_singleton.
      rewrite list_elem_of_singleton. tauto.
    - intros s. rewrite fmap_app. intros [Hin| ->%list_elem_of_singleton]%elem_of_app.
      + by apply Hf1.
      + cbn [b_symbol b]. intros Hin. apply Hfresh. rewrite Hu1.
        apply elem_of_union. by right.
    - intros b' s [Hin| ->%list_elem_of_singleton]%elem_of_app; [by apply Hc1|].
      cbn [b_refs b_text b]. apply Ho. }
  exists retval', refs', st', ((bs1 ++ [b]) ++ bs2).
  split; [|split; [|split; [|split]]].
  - unfold tbind at 1. rewrite Ht. cbn [fst snd].
    unfold tbind at 1. unfold tlift. rewrite Hu.
    unfold tbind at 1. unfold emit_binding. fold b. rewrite Happ.
    rewrite Ht2. cbn [app]. by rewrite <- app_assoc.
  - unfold mbind at 1. rewrite Hp.
    unfold mbind at 1. rewrite Hu.
    unfold mbind at 1. change (raw_statement subref sub) with (statement_of b).
    rewrite Happ. by rewrite Hp2.
  - by eapply step_post_app.
  - intros s Hin. rewrite !fmap_app, !elem_of_app.
    destruct (Hr2 s Hin) as [[?|Hsub]%elem_of_app|?]; [by left| |by right; right].
    right. left. right. done.
  - intros Hh. apply Hh2. apply held_snoc; [done|].
    intros s ->%list_elem_of_singleton. apply occurs_refl.
Qed.

Lemma loop_nil_ok retval refs st :
  loop_post (tret (retval, refs) st) (mret retval st) retval refs st.
Proof.
  exists retval, refs, st, []. split; [done|]. split; [done|].
  split; [apply step_post_refl|]. split; [|done]. intros s Hs. by left.
Qed.

Lemma dict_loop_ok ref indent items :
  Forall (fun kv => node_ok ref kv.2) items ->
  forall first,
    loop_ok (dict_loop_traced (dfs_traced ref) ref indent items first)
            (dict_loop (dfs_helper ref) ref indent items first).
Proof.
  induction 1 as [|[key val] rest Hval _ IH]; intros first.
  - intros retval refs st. apply loop_nil_ok.
  - cbn [snd] in Hval. intros retval refs st.
    rewrite dict_loop_cons, dict_loop_traced_cons. cbn zeta.
    set (retval1 := (if first then retval else retval ++ [py ","]) ++ _).
    apply (loop_post_weaken _ _ retval retval1).
    2:{ apply held_mono. intros frag Hf. unfold retval1.
        apply elem_of_app. left. destruct first; [done|].
        apply elem_of_app. by left. }
    destruct (behavior_of key val) as [t|hint|].
    + destruct (isinstance val TInt).
      * eapply loop_post_weaken; [apply (IH false)|].
        apply held_mono. intros frag Hf. apply elem_of_app. by left.
      * apply (recurse_step_ok ref val _ _ _ Hval (IH false)).
    + destruct (isinstance val TDict).
      * apply (hoist_step_ok ref val hint _ _ Hval (IH false)).
      * apply (recurse_step_ok ref val _ _ _ Hval (IH false)).
    + apply (recurse_step_ok ref val _ _ _ Hval (IH false)).
Qed.

Lemma list_loop_ok ref indent items :
  Forall (node_ok ref) items ->
  forall first,
    loop_ok (list_loop_traced (dfs_traced ref) indent items first)
            (list_loop (dfs_helper ref) indent items first).
Proof.
  induction 1 as [|val rest Hval _ IH]; intros first.
  - intros retval refs st. apply loop_nil_ok.
  - intros retval refs st.
    rewrite list_loop_cons, list_loop_traced_cons.
    set (retval1 := (if first then retval else retval ++ [py ","]) ++ _).
    apply (loop_post_weaken _ _ retval retval1).
    2:{ apply held_mono. intros frag Hf. unfold retval1.
        apply elem_of_app. left. destruct first; [done|].
        apply elem_of_app. by left. }
    apply (recurse_step_ok ref val _ _ _ Hval (IH false)).
Qed.

Lemma leaf_ok ref node :
  (forall indent, dfs_traced ref node indent = tret (Json.dumps_leaf node, [])) ->
  (forall indent, dfs_helper ref node indent = mret (Json.dumps_leaf node)) ->
  node_ok ref node.
Proof.
  intros Ht Hp indent st. exists (Json.dumps_leaf node), [], st, [].
  rewrite Ht, Hp. split; [done|]. split; [done|].
  split; [apply step_post_refl|]. split; by intros s Hs%elem_of_nil.
Qed.

Lemma container_ok (traced : list pystr -> list pystr -> T (list pystr * list pystr))
    (plain : list pystr -> M (list pystr)) (open close : pystr) st :
  loop_ok traced plain ->
  node_post
    (tbind (traced [open] []) (fun r => tret (concat_str (r.1 ++ [close]), r.2)) st)
    (mbind (plain [open]) (fun retval => mret (concat_str (retval ++ [close]))) st)
    st.
Proof.
  intros Hloop.
  destruct (Hloop [open] [] st) as (retval & refs & st' & bs & Ht & Hp & Hs & Hr & Hh).
  exists (concat_str (retval ++ [close])), refs, st', bs.
  split; [|split; [|split; [|split]]].
  - unfold tbind. rewrite Ht. cbn. by rewrite app_nil_r.
  - unfold mbind. by rewrite Hp.
  - done.
  - intros s Hin. by destruct (Hr s Hin) as [?%elem_of_nil|?].
  - intros s Hin. destruct (Hh (held_nil _) s Hin) as (frag & Hf & Ho).
    apply (occurs_concat s frag); [|done]. apply elem_of_app. by left.
Qed.

(** The serializer returns on every value and in every state; the traced
    one returns the same text and state, and its bindings are in order. *)
Lemma dfs_traced_ok ref node : node_ok ref node.
Proof.
  induction node as [| | | | |items IH|items IH] using pyval_nested_ind;
    try (by apply leaf_ok).
  - intros indent st. rewrite dfs_traced_list, dfs_helper_list.
    apply container_ok. by apply list_loop_ok.
  - intros indent st. rewrite dfs_traced_dict, dfs_helper_dict.
    apply container_ok. by apply dict_loop_ok.
Qed.

(** Dropping the record of bindings gives back the serializer. *)
Lemma dfs_traced_erase ref node indent st :
  dfs_helper ref node indent st
  = match dfs_traced ref node indent st with
    | Ok (text, _, st', _) => Ok (text, st')
    | Raise e => Raise e
    end.
Proof.
  destruct (dfs_traced_ok ref node indent st) as (text & refs & st' & bs & Ht & Hp & _).
  by rewrite Ht, Hp.
Qed.

(** [dfs_helper] returns on every value and in every state. *)
Lemma dfs_helper_total ref node indent st :
  exists text st', dfs_helper ref node indent st = Ok (text, st').
Proof.
  destruct (dfs_traced_ok ref node indent st) as (text & refs & st' & bs & _ & Hp & _).
  by exists text, st'.
Qed.

End TraceFacts.

(** ** The order of the statements *)

(** C6.  [emit_raw_json], from any state and on any value, returns; the
    statements it appends to the output are the hoisted bindings, in the
    order of the descent, followed by the binding of the tree itself;
    every symbol substituted into the text of one of these statements is
    the symbol of a hoisted binding that stands strictly before that
    statement; the hoisted symbols are pairwise distinct, and each
    recorded reference is a piece of the text it was recorded for. *)
Theorem hoisted_bindings_precede_their_use (ref : pystr) (data : pyval) (st : state) :
  exists st' hoisted root refs,
    let bs := hoisted ++ [Trace.mkBinding ref root refs] in
    Trace.emit_raw_json_traced ref data st = Ok (tt, st', bs)
    /\ Serializer.emit_raw_json ref data st = Ok (tt, st')
    /\ output st' = output st ++ (Trace.statement_of <$> bs)
    /\ Trace.well_ordered bs
    /\ NoDup (Trace.b_symbol <$> hoisted)
    /\ forall b s, b ∈ bs -> s ∈ Trace.b_refs b -> Trace.occurs s (Trace.b_text b).
Proof.
  destruct (TraceFacts.dfs_traced_ok ref data [] st)
    as (root & refs & st1 & bs & Ht & Hp & [Ho Hw Hn Hu Hf Hc] & Hr & Hocc).
  set (b := Trace.mkBinding ref root refs).
  eexists _, bs, root, refs. cbn zeta. fold b. split; [|split; [|split; [|split; [|split]]]].
  - unfold Trace.emit_raw_json_traced, Trace.tbind. rewrite Ht.
    unfold Trace.emit_binding, output_append. cbn [fst snd]. reflexivity.
  - unfold Serializer.emit_raw_json, mbind. rewrite Hp. reflexivity.
  - cbn [output]. rewrite Ho, fmap_app. by rewrite <- app_assoc.
  - by apply TraceFacts.well_ordered_snoc.
  - done.
  - intros b' s [Hin| ->%list_elem_of_singleton]%elem_of_app; [by apply Hc|].
    apply Hocc.
Qed.

(** ** The literal formatter and the backslash *)

Module LiteralFacts.
Import Literal SpecUnescape Shapes.

Lemma all_below_spec bits f : forall base c,
  all_below bits base f = true ->
  (base * 2 ^ N.of_nat bits <= c < (base + 1) * 2 ^ N.of_nat bits)%N ->
  f c = true.
Proof.
  induction bits as [|bits IH]; intros base c Hall Hc.
  - cbn in Hc. cbn in Hall. replace c with base by lia. done.
  - cbn [all_below] in Hall. apply andb_true_iff in Hall as [H0 H1].
    rewrite Nat2N.inj_succ, N.pow_succ_r' in Hc.
    destruct (decide (c < (2 * base + 1) * 2 ^ N.of_nat bits)%N).
    + apply (IH (2 * base)%N c H0). lia.
    + apply (IH (2 * base + 1)%N c H1). lia.
Qed.

Lemma hex4_reads_back_all : all_below 16 0 hex4_reads_back = true.
Proof. vm_compute. reflexivity. Qed.

Lemma format_04X_reads_back c :
  (c < 65536)%N ->
  exists a b c' d, format_04X c = [a; b; c'; d] /\ hex4_value a b c' d = Some c.
Proof.
  intros Hc.
  pose proof (all_below_spec 16 hex4_reads_back 0 c hex4_reads_back_all) as Hin.
  assert (Hr : hex4_reads_back c = true).
  { apply Hin. change (2 ^ N.of_nat 16)%N with 65536%N. lia. }
  unfold hex4_reads_back in Hr.
  destruct (format_04X c) as [|a [|b [|c' [|d [|? ?]]]]]; try discriminate Hr.
  apply bool_decide_eq_true in Hr. by exists a, b, c', d.
Qed.

Lemma unescape_body_escape c rest :
  c <> backslash ->
  unescape_body (escape c ++ rest) = c :: unescape_body rest.
Proof.
  intros Hc. unfold escape.
  destruct (((32 <=? c)%N && (c <=? 126)%N) || (65535 <? c)%N) eqn:Hrange.
  - cbn [app unescape_body]. by rewrite (proj2 (N.eqb_neq c backslash) Hc).
  - apply orb_false_iff in Hrange as [Hp Hhigh]. apply N.ltb_ge in Hhigh.
    destruct (c =? 8)%N eqn:E8; [apply N.eqb_eq in E8 as ->; reflexivity|].
    destruct (c =? 12)%N eqn:E12; [apply N.eqb_eq in E12 as ->; reflexivity|].
    destruct (c =? 10)%N eqn:E10; [apply N.eqb_eq in E10 as ->; reflexivity|].
    destruct (c =? 13)%N eqn:E13; [apply N.eqb_eq in E13 as ->; reflexivity|].
    destruct (c =? 9)%N eqn:E9; [apply N.eqb_eq in E9 as ->; reflexivity|].
    destruct (format_04X_reads_back c) as (a & b & c' & d & -> & Hv); [lia|].
    cbn. by rewrite Hv.
Qed.

Lemma unescape_body_escaped s rest :
  backslash ∉ s ->
  unescape_body (concat_str (escape <$> s) ++ rest) = s ++ unescape_body rest.
Proof.
  induction s as [|c s IH]; intros Hs; [done|].
  apply not_elem_of_cons in Hs as [Hc Hs].
  unfold concat_str in *. cbn [fmap list_fmap mjoin list_join].
  rewrite <- app_assoc, unescape_body_escape by done.
  cbn [app]. f_equal. by apply IH.
Qed.

Lemma strip_quotes_make_string s :
  strip_quotes (make_string s) = Some (concat_str (escape <$> s)).
Proof.
  unfold make_string, strip_quotes. cbn [app].
  change (dquote =? dquote)%N with true. cbn match.
  by rewrite last_snoc, removelast_last.
Qed.

(** Apart from the backslash, the literal reads back. *)
Lemma make_string_roundtrip_without_backslash s :
  backslash ∉ s -> unescape (make_string s) = Some s.
Proof.
  intros Hs. unfold unescape. rewrite strip_quotes_make_string. cbn [fmap option_fmap option_map].
  f_equal. rewrite <- (app_nil_r (concat_str _)), unescape_body_escaped by done.
  cbn. by rewrite app_nil_r.
Qed.

End LiteralFacts.

Import Examples.

(** C3.  The specification says that un-escaping [make_string s] gives [s]
    back for every string [s].  The backslash and the double quote are in
    the printable range, which [escape] passes through verbatim, so the
    two-character string backslash-n and the one-character string newline
    get the same literal, and un-escaping it yields the newline for both. *)
Theorem make_string_backslash_not_escaped :
  Literal.make_string (py "\n") = Literal.make_string [10%N]
  /\ SpecUnescape.unescape (Literal.make_string (py "\n")) = Some [10%N]
  /\ py "\n" <> [10%N].
Proof. split; [|split]; [reflexivity|reflexivity|discriminate]. Qed.

(** No function at all can undo [make_string]; without a backslash in the
    string, un-escaping does work
    ([LiteralFacts.make_string_roundtrip_without_backslash]). *)
Lemma make_string_has_no_inverse :
  ~ exists undo : pystr -> pystr, forall s, undo (Literal.make_string s) = s.
Proof.
  intros [undo H]. pose proof (H (py "\n")) as H1. pose proof (H [10%N]) as H2.
  change (Literal.make_string (py "\n")) with (Literal.make_string [10%N]) in H1.
  rewrite H1 in H2. discriminate H2.
Qed.

(** ** The extension URI loop *)

(** C1.  The specification says that every entry of a non-empty
    [extensionUris] list is unpacked and yields a [using] statement.  The
    loop builds its unpacker over the list instead of the entry, so the
    first [pop] raises, and [disas] fails on the plan
    [plan_with_uri], whose single entry is well formed. *)
Theorem disas_extension_uri_raises :
  Disas.disas plan_with_uri
  = Raise (TypeError (py "sequence item 0: expected str instance, dict found")).
Proof. vm_compute. reflexivity. Qed.

(** The loop body fails on every entry of every non-empty list. *)
Lemma emit_extension_uri_fails (entries : list pyval) entry st :
  entries <> [] ->
  is_ok (Disas.emit_extension_uri (PList entries) entry st) = false.
Proof.
  intros Hne. unfold Disas.emit_extension_uri, mbind, lift.
  unfold MessageUnpacker.with_unpacker. cbn.
  unfold MessageUnpacker.exit. cbn.
  rewrite bool_decide_eq_false_2 by done. cbn.
  by destruct (MessageUnpacker.join_items 0 entries).
Qed.

(** So no plan with a non-empty [extensionUris] list is disassembled. *)
Lemma disas_nonempty_extension_uris_fails plan entry entries exts rels adv urls :
  Disas.unpack_plan plan = Ok (PList (entry :: entries), exts, rels, adv, urls) ->
  is_ok (Disas.disas plan) = false.
Proof.
  intros Hplan. unfold Disas.disas, rbind. rewrite Hplan.
  destruct (Disas.unpack_advanced_extensions adv) as [[enh opt]|e]; [|done].
  unfold Disas.emit_extensions. cbn [truthy bool_decide negb orb].
  rewrite bool_decide_eq_false_2 by done. cbn [negb orb].
  cbn [Disas.list_items Disas.for_each].
  unfold mbind at 1. unfold mbind at 1. unfold mbind at 1. cbn [output_append].
  unfold mbind at 1.
  pose proof (emit_extension_uri_fails (entry :: entries) entry
    (mkState (used_names initial_state)
       (output initial_state ++ [[10%N] ++ py "// Type/function extensions" ++ [10%N]])
       (uri_lookup initial_state) (typ_lookup initial_state)
       (tv_lookup initial_state) (fn_lookup initial_state))) as Hfail.
  destruct (Disas.emit_extension_uri _ _ _) as [[? ?]|e].
  - by specialize (Hfail ltac:(done)).
  - done.
Qed.

(** ** The root relation branch *)

(** C2.  The specification says that a [root] relation is unpacked as an
    [input] mapping and a list of names, and then serialized.  The branch
    pops [input] as an int, so a mapping is refused, and with an int it
    goes on to call [emit_rels], which the module does not define. *)
Theorem disas_root_relation_raises :
  Disas.disas plan_with_root
  = Raise (ValueError (py "unknown key(s) in relation root: names"))
  /\ Disas.disas plan_with_int_root
     = Raise (NameError (py "name 'emit_rels' is not defined")).
Proof. split; vm_compute; reflexivity. Qed.

(** No relation with the [root] tag gets through, whatever its payload. *)
Lemma emit_relation_root_fails index payload st :
  is_ok (Disas.emit_relation index (PDict [(py "root", payload)]) st) = false.
Proof.
  unfold Disas.emit_relation, mbind, output_append, lift. cbn.
  destruct (MessageUnpacker.with_unpacker _ _ _) as [[rel names]|e]; reflexivity.
Qed.

(** ** The symbol of a hoisted binding *)

(** C4, counterexample.  A mapping with two keys under [input]: the
    binding is named after its first key, [read], and not after
    [unknown]. *)
Lemma hoist_of_two_key_mapping_uses_first_key :
  exists st',
    Serializer.dfs_helper (py "rel_0")
      (dict [("input", dict [("read", dict []); ("common", dict [])])]) []
      initial_state
    = Ok (py "{" ++ [10%N] ++ py "  " ++ Literal.make_string (py "input")
          ++ py ": " ++ py "rel_0_read" ++ [10%N] ++ py "}", st')
    /\ used_names st' = {[ py "rel_0_read" ]}
    /\ Ident.make_ident [py "rel_0"; py "unknown"] = py "rel_0_unknown"
    /\ py "rel_0_unknown" ∉ used_names st'.
Proof.
  eexists. split; [vm_compute; reflexivity|]. cbn [used_names].
  split; [vm_compute; reflexivity|]. split; [reflexivity|].
  vm_compute. intros H. discriminate H.
Qed.

(** C4, amended.  For every mapping [v] met under the key [input], at any
    place of the enclosing mapping and in any state: [v] is rendered, the
    candidate symbol is made of the current declaration name and of the
    first key of [v], or of [unknown] when [v] is empty, the allocator
    turns the candidate into the symbol, and the loop goes on with the
    binding emitted and the symbol in place of [v]. *)
Theorem hoisted_symbol_from_first_key (ref indent : pystr)
    (v rest : list (pystr * pyval)) (first : bool) (retval : list pystr) (st : state) :
  let candidate :=
    Ident.make_ident [ref; match v with [] => py "unknown" | (k, _) :: _ => k end] in
  exists sub st1 subref,
    Serializer.dfs_helper ref (PDict v) [] st = Ok (sub, st1)
    /\ Allocator.uniquify candidate st1 = Ok (subref, add_used_name subref st1)
    /\ Shapes.allocated (fun x => x ∈ used_names st1) candidate subref
    /\ Serializer.dict_loop (Serializer.dfs_helper ref) ref indent
         ((py "input", PDict v) :: rest) first retval st
       = mbind (output_append (Serializer.raw_statement subref sub))
           (fun _ =>
              Serializer.dict_loop (Serializer.dfs_helper ref) ref indent rest false
                (((if first then retval else retval ++ [py ","])
                  ++ [[10%N] ++ indent ++ py "  "
                      ++ Literal.make_string (py "input") ++ py ": "])
                 ++ [subref]))
           (add_used_name subref st1).
Proof.
  cbn zeta.
  destruct (TraceFacts.dfs_helper_total ref (PDict v) [] st) as (sub & st1 & Hsub).
  destruct (AllocatorFacts.uniquify_spec
              (Ident.make_ident [ref; match v with [] => py "unknown" | (k, _) :: _ => k end])
              st1) as (subref & Hu & Hfresh & Hnew & Hold).
  { apply IdentFacts.canonical_is_ident, IdentFacts.make_ident_canonical. }
  exists sub, st1, subref. split; [done|]. split; [done|]. split; [by split|].
  rewrite TraceFacts.dict_loop_cons. cbn zeta.
  change (Serializer.behavior_of (py "input") (PDict v))
    with (Serializer.subtree (Serializer.subtree_hint (PDict v))).
  cbn [isinstance type_of].
  unfold mbind at 1. rewrite Hsub. unfold mbind at 1.
  replace (Serializer.subtree_hint (PDict v))
    with (match v with [] => py "unknown" | (k, _) :: _ => k end)
    by (by destruct v as [|[k x] v']).
  by rewrite Hu.
Qed.

(** * Further properties *)

(** ** Identifiers *)

Module IdentExtra.
Import Ident Shapes IdentFacts.

Lemma is_ident_canonical name :
  is_ident name = true -> nodouble name = true ->
  endswith_underscore name = false -> canonical name.
Proof.
  intros Hid Hn He. destruct name as [|c r]; [done|].
  cbn in Hid. apply andb_true_iff in Hid as [Hc Hr].
  assert (Hw : is_word c = true).
  { unfold is_word_start in Hc. unfold is_word.
    apply orb_true_iff in Hc as [Hc| ->]; [|by rewrite orb_true_r].
    apply orb_true_iff in Hc as [-> | ->]; [done|by rewrite orb_true_r]. }
  split.
  - cbn [forallb]. by rewrite Hw, Hr.
  - done.
  - exists c, r. split; [done|].
    destruct (is_digit c) eqn:Ed; [|done]. exfalso.
    unfold is_word_start, is_lower, is_upper, is_digit, underscore in *.
    apply andb_true_iff in Ed as [H1 H2]. apply N.leb_le in H1, H2.
    apply orb_true_iff in Hc as [Hc|Hc].
    + apply orb_true_iff in Hc as [[H3 H4]%andb_true_iff | [H3 H4]%andb_true_iff];
        apply N.leb_le in H3, H4; lia.
    + apply N.eqb_eq in Hc. lia.
  - by right.
Qed.
End IdentExtra.

(** X1.  Whatever the components, the result of [make_ident] has no two
    underscores in a row, holds only characters of [[A-Za-z0-9_]], and
    does not end in an underscore unless it is the lone underscore. *)
Theorem make_ident_underscores_collapsed (components : list pystr) :
  Shapes.nodouble (Ident.make_ident components) = true
  /\ forallb Ident.is_word (Ident.make_ident components) = true
  /\ (Ident.make_ident components = [Ident.underscore]
      \/ Ident.endswith_underscore (Ident.make_ident components) = false).
Proof.
  destruct (IdentFacts.make_ident_canonical components) as [Hw Hn _ Ht]. done.
Qed.

(** X2.  A valid identifier without two underscores in a row and without
    a trailing underscore goes through [make_ident] unchanged. *)
Theorem make_ident_keeps_clean_identifier (name : pystr) :
  Ident.is_ident name = true ->
  Shapes.nodouble name = true ->
  Ident.endswith_underscore name = false ->
  Ident.make_ident [name] = name.
Proof.
  intros. by apply IdentFacts.canonical_fixed, IdentExtra.is_ident_canonical.
Qed.

Lemma make_ident_keeps_clean_identifier_witness :
  Ident.is_ident (py "is_not_null") = true
  /\ Shapes.nodouble (py "is_not_null") = true
  /\ Ident.endswith_underscore (py "is_not_null") = false
  /\ Ident.make_ident [py "is_not_null"] = py "is_not_null".
Proof.
  split; [reflexivity|]. split; [reflexivity|]. split; [reflexivity|].
  apply (make_ident_keeps_clean_identifier (py "is_not_null")); reflexivity.
Defined.

(** ** Literals *)

Module LiteralExtra.
Import Literal Shapes Props.

Lemma escape_is_literal_all : all_below 16 0 escape_is_literal = true.
Proof. vm_compute. reflexivity. Qed.

Lemma escape_chars c : forallb literal_char (escape c) = true.
Proof.
  destruct (decide (c < 65536)%N) as [Hc|Hc].
  - apply (LiteralFacts.all_below_spec 16 escape_is_literal 0 c escape_is_literal_all).
    change (2 ^ N.of_nat 16)%N with 65536%N. lia.
  - unfold escape. assert (H : (65535 <? c)%N = true) by (apply N.ltb_lt; lia).
    rewrite H, orb_true_r. cbn [forallb]. unfold literal_char.
    by rewrite H, orb_true_r.
Qed.

Lemma escaped_chars s : forallb literal_char (concat_str (escape <$> s)) = true.
Proof.
  induction s as [|c s IH]; [done|].
  change (concat_str (escape <$> (c :: s)))
    with (escape c ++ concat_str (escape <$> s)).
  by rewrite forallb_app, IH, escape_chars.
Qed.
End LiteralExtra.

(** X4.  A literal of [make_string] starts and ends with a double quote
    and holds only printable ASCII characters and characters above the
    16-bit boundary: no control character and no other character of the
    16-bit range gets into the output. *)
Theorem make_string_emits_literal_chars (contents : pystr) :
  forallb Props.literal_char (Literal.make_string contents) = true
  /\ head (Literal.make_string contents) = Some Literal.dquote
  /\ last (Literal.make_string contents) = Some Literal.dquote.
Proof.
  unfold Literal.make_string. split; [|split].
  - rewrite !forallb_app, LiteralExtra.escaped_chars. reflexivity.
  - reflexivity.
  - rewrite app_assoc. apply last_snoc.
Qed.

(** X3.  A string without a backslash is read back from its literal by
    the un-escaping of the specification: the short escapes, the
    [\uXXXX] escapes of the 16-bit range and the characters passed
    through verbatim, those above the 16-bit boundary among them, all
    come back as they were. *)
Theorem make_string_reads_back_without_backslash (contents : pystr) :
  Literal.backslash ∉ contents ->
  SpecUnescape.unescape (Literal.make_string contents) = Some contents.
Proof. apply LiteralFacts.make_string_roundtrip_without_backslash. Qed.

Lemma make_string_reads_back_without_backslash_witness :
  (Literal.backslash ∉ (py "a" ++ [9; 200; 70000]%N))
  /\ SpecUnescape.unescape (Literal.make_string (py "a" ++ [9; 200; 70000]%N))
     = Some (py "a" ++ [9; 200; 70000]%N).
Proof.
  assert (H : Literal.backslash ∉ (py "a" ++ [9; 200; 70000]%N)).
  { intros Hin. repeat (apply elem_of_cons in Hin as [Hin|Hin]; [discriminate Hin|]).
    by apply elem_of_nil in Hin. }
  split; [exact H|].
  exact (make_string_reads_back_without_backslash _ H).
Defined.

(** ** Unpacking *)

Module UnpackerExtra.
Import MessageUnpacker Shapes UnpackerFacts Props.
Lemma dict_get_del_ne key k items :
  k <> key -> dict_get k (dict_del key items) = dict_get k items.
Proof.
  intros Hne. unfold dict_del. induction items as [|[k' v] items IH]; [done|].
  rewrite filter_cons. cbn [fst]. destruct (decide (k' <> key)) as [Hk|Hk].
  - cbn [dict_get]. by rewrite IH.
  - apply dec_stable in Hk as ->. cbn [dict_get].
    rewrite bool_decide_eq_false_2 by done. exact IH.
Qed.
Lemma pop_dict err_ctxt key typ default items :
  exists r, pop err_ctxt key typ default (PDict items) = (r, PDict (dict_del key items)).
Proof.
  unfold pop, obj_pop. destruct (dict_get key items) as [v|] eqn:E.
  - destruct (isinstance v typ); by eexists.
  - rewrite (dict_del_absent _ _ E). destruct default as [d|]; [|by eexists].
    destruct (isinstance d typ); by eexists.
Qed.
Lemma keeps_pop err_ctxt key typ default k :
  k <> key -> keeps k (pop err_ctxt key typ default).
Proof.
  intros Hne items v Hv.
  destruct (pop_dict err_ctxt key typ default items) as [r Hr].
  exists r, (dict_del key items). split; [done|]. by rewrite dict_get_del_ne.
Qed.
Lemma keeps_ret {A} (a : A) k : keeps k (ret a).
Proof. intros items v Hv. by exists (Ok a), items. Qed.
Lemma keeps_bind {A B} (m : step A) (f : A -> step B) k :
  keeps k m -> (forall a, keeps k (f a)) -> keeps k (bind m f).
Proof.
  intros Hm Hf items v Hv. destruct (Hm items v Hv) as (r & items' & Hr & Hv').
  unfold bind. rewrite Hr. destruct r as [a|e].
  - by apply Hf.
  - by exists (Raise e), items'.
Qed.
Lemma with_unpacker_leftover {A} err_ctxt (body : pystr -> step A) items k v :
  keeps k (body err_ctxt) -> dict_get k items = Some v ->
  exists left, left <> []
    /\ with_unpacker err_ctxt (PDict items) body = Raise (unknown_keys err_ctxt left).
Proof.
  intros Hk Hv. destruct (Hk items v Hv) as (r & items' & Hr & Hv').
  exists items'. split; [by destruct items'|].
  unfold with_unpacker. rewrite Hr. unfold exit.
  destruct items' as [|kv rest]; [done|]. reflexivity.
Qed.
Lemma pop_ok_kind err_ctxt key typ default obj v obj' :
  pop err_ctxt key typ default obj = (Ok v, obj') -> isinstance v typ = true.
Proof.
  unfold pop. destruct (obj_pop key default obj) as [[[w|]|e] o]; try done.
  destruct (isinstance w typ) eqn:E; [|done]. by intros [= <- _].
Qed.

Ltac keeps_pops :=
  repeat (apply keeps_bind; [by apply keeps_pop|intros ?]); apply keeps_ret.

Lemma dict_get_None_keys key items :
  dict_get key items = None <-> key ∉ dict_keys items.
Proof.
  unfold dict_keys. induction items as [|[k v] items IH]; cbn [dict_get fmap list_fmap fst].
  - split; [intros _ H; by apply elem_of_nil in H|done].
  - rewrite not_elem_of_cons. case_bool_decide as Hk.
    + split; [done|]. intros [Hne _]. by destruct Hne.
    + rewrite IH. split; [by intros ?; split|by intros [_ ?]].
Qed.

Lemma dict_keys_del key items :
  dict_keys (dict_del key items) = filter (fun k => k <> key) (dict_keys items).
Proof.
  unfold dict_keys, dict_del. induction items as [|[k v] items IH]; [done|].
  cbn [fmap list_fmap fst]. rewrite !filter_cons. cbn [fst].
  destruct (decide (k <> key)); [cbn [fmap list_fmap fst]; by f_equal|done].
Qed.

End UnpackerExtra.

Import MessageUnpacker Shapes UnpackerFacts Props.

(** X5.  When the key is present with a value of the expected kind, [pop]
    returns the value and removes the key, and every other key keeps its
    value. *)
Theorem pop_present_right_kind (err_ctxt key : pystr) (typ : pytype)
    (default : option pyval) (items : list (pystr * pyval)) (value : pyval) :
  dict_get key items = Some value ->
  isinstance value typ = true ->
  pop err_ctxt key typ default (PDict items) = (Ok value, PDict (dict_del key items))
  /\ dict_get key (dict_del key items) = None
  /\ forall k, k <> key -> dict_get k (dict_del key items) = dict_get k items.
Proof.
  intros Hget Hty. split; [|split].
  - unfold pop, obj_pop. by rewrite Hget, Hty.
  - apply dict_get_del.
  - intros k Hk. by apply UnpackerExtra.dict_get_del_ne.
Qed.

Lemma pop_present_right_kind_witness :
  dict_get (py "name") [(py "functionAnchor", PInt 2); (py "name", PStr (py "and"))]
  = Some (PStr (py "and"))
  /\ isinstance (PStr (py "and")) TStr = true
  /\ pop (py "function extension") (py "name") TStr None
       (PDict [(py "functionAnchor", PInt 2); (py "name", PStr (py "and"))])
     = (Ok (PStr (py "and")), PDict [(py "functionAnchor", PInt 2)]).
Proof.
  split; [reflexivity|]. split; [reflexivity|].
  apply (pop_present_right_kind (py "function extension") (py "name") TStr None
           [(py "functionAnchor", PInt 2); (py "name", PStr (py "and"))]
           (PStr (py "and"))); reflexivity.
Defined.

(** X6.  A plan with a key that is none of the five toplevel keys is
    refused with the unknown-key [ValueError] of [__exit__], whatever the
    other keys hold: [__exit__] runs also when a [pop] has raised, and its
    exception takes the place of that one.  [disas] fails on such a
    plan. *)
Theorem unpack_plan_rejects_unknown_key (items : list (pystr * pyval))
    (k : pystr) (v : pyval) :
  dict_get k items = Some v ->
  k ∉ plan_keys ->
  (exists left, left <> []
     /\ Disas.unpack_plan (PDict items) = Raise (unknown_keys (py "plan") left))
  /\ is_ok (Disas.disas (PDict items)) = false.
Proof.
  intros Hv Hk. unfold plan_keys in Hk.
  repeat (apply not_elem_of_cons in Hk as [? Hk]).
  assert (H5 : exists left, left <> []
     /\ Disas.unpack_plan (PDict items) = Raise (unknown_keys (py "plan") left)).
  { unfold Disas.unpack_plan.
    eapply UnpackerExtra.with_unpacker_leftover; [|exact Hv].
    UnpackerExtra.keeps_pops. }
  split; [exact H5|]. destruct H5 as (left & _ & Hr).
  unfold Disas.disas, rbind. by rewrite Hr.
Qed.

Lemma unpack_plan_rejects_unknown_key_witness :
  dict_get (py "version") [(py "relations", PList []); (py "version", PInt 1)]
  = Some (PInt 1)
  /\ (py "version" ∉ plan_keys)
  /\ is_ok (Disas.disas (PDict [(py "relations", PList []); (py "version", PInt 1)]))
     = false.
Proof.
  assert (H : py "version" ∉ plan_keys).
  { intros Hin. unfold plan_keys in Hin.
    repeat (apply elem_of_cons in Hin as [Hin|Hin]; [discriminate Hin|]).
    by apply elem_of_nil in Hin. }
  split; [reflexivity|]. split; [exact H|].
  apply (unpack_plan_rejects_unknown_key
           [(py "relations", PList []); (py "version", PInt 1)]
           (py "version") (PInt 1) eq_refl H).
Defined.

(** X7.  When the toplevel unpacking returns, the three extension and
    relation values and the expected type URLs are lists and the advanced
    extensions are a dict, so the loops of [disas] run over lists. *)
Theorem unpack_plan_result_kinds (plan : pyval)
    (extension_uris extensions relations advanced_extensions expected_type_urls : pyval) :
  Disas.unpack_plan plan
  = Ok (extension_uris, extensions, relations, advanced_extensions, expected_type_urls) ->
  isinstance extension_uris TList = true
  /\ isinstance extensions TList = true
  /\ isinstance relations TList = true
  /\ isinstance advanced_extensions TDict = true
  /\ isinstance expected_type_urls TList = true.
Proof.
  unfold Disas.unpack_plan, with_unpacker, bind.
  destruct (pop _ (py "extensionUris") _ _ plan) as [[a|?] o1] eqn:E1;
    [|by destruct (exit _ _)].
  destruct (pop _ (py "extensions") _ _ o1) as [[b|?] o2] eqn:E2;
    [|by destruct (exit _ _)].
  destruct (pop _ (py "relations") _ _ o2) as [[c|?] o3] eqn:E3;
    [|by destruct (exit _ _)].
  destruct (pop _ (py "advancedExtensions") _ _ o3) as [[d|?] o4] eqn:E4;
    [|by destruct (exit _ _)].
  destruct (pop _ (py "expectedTypeUrls") _ _ o4) as [[e|?] o5] eqn:E5;
    [|by destruct (exit _ _)].
  unfold ret. destruct (exit _ _); [done|]. intros [= <- <- <- <- <-].
  apply UnpackerExtra.pop_ok_kind in E1, E2, E3, E4, E5. done.
Qed.

Lemma unpack_plan_result_kinds_witness :
  Disas.unpack_plan (PDict [(py "relations", PList [PNone])])
  = Ok (PList [], PList [], PList [PNone], PDict [], PList [])
  /\ isinstance (PList []) TList = true
  /\ isinstance (PList []) TList = true
  /\ isinstance (PList [PNone]) TList = true
  /\ isinstance (PDict []) TDict = true
  /\ isinstance (PList []) TList = true.
Proof.
  split; [reflexivity|].
  apply (unpack_plan_result_kinds (PDict [(py "relations", PList [PNone])])
           (PList []) (PList []) (PList [PNone]) (PDict []) (PList [])).
  reflexivity.
Defined.

(** X8.  A function extension with a field that is none of
    [extensionUriReference], [functionAnchor] and [name] is refused with
    the unknown-key [ValueError], whatever the other fields hold. *)
Theorem extension_with_unknown_field_is_rejected (items : list (pystr * pyval))
    (k : pystr) (v : pyval) (st : state) :
  dict_get k items = Some v ->
  k ∉ function_keys ->
  exists left, left <> []
    /\ Disas.emit_extension (PDict [(py "extensionFunction", PDict items)]) st
       = Raise (unknown_keys (py "function extension") left).
Proof.
  intros Hv Hk. unfold function_keys in Hk.
  repeat (apply not_elem_of_cons in Hk as [? Hk]).
  assert (H3 : exists left, left <> []
     /\ Disas.unpack_extension (py "function extension") (py "functionAnchor") (PDict items)
        = Raise (unknown_keys (py "function extension") left)).
  { unfold Disas.unpack_extension.
    eapply UnpackerExtra.with_unpacker_leftover; [|exact Hv].
    UnpackerExtra.keeps_pops. }
  destruct H3 as (left & Hne & Hr). exists left. split; [done|].
  unfold Disas.emit_extension. unfold mbind at 1.
  cbn [lift OneOfMessageUnpacker.init OneOfMessageUnpacker.py_len length Nat.eqb negb].
  unfold mbind at 1.
  change (OneOfMessageUnpacker.handle (py "extensionFunction") (py "extensionFunction"))
    with true. cbn iota.
  rewrite Hr. reflexivity.
Qed.

Lemma extension_with_unknown_field_is_rejected_witness :
  dict_get (py "comment")
    [(py "functionAnchor", PInt 1); (py "name", PStr (py "and")); (py "comment", PNone)]
  = Some PNone
  /\ (py "comment" ∉ function_keys)
  /\ exists left, left <> []
    /\ Disas.emit_extension
         (PDict [(py "extensionFunction",
                  PDict [(py "functionAnchor", PInt 1); (py "name", PStr (py "and"));
                         (py "comment", PNone)])]) initial_state
       = Raise (unknown_keys (py "function extension") left).
Proof.
  assert (H : py "comment" ∉ function_keys).
  { intros Hin. unfold function_keys in Hin.
    repeat (apply elem_of_cons in Hin as [Hin|Hin]; [discriminate Hin|]).
    by apply elem_of_nil in Hin. }
  split; [reflexivity|]. split; [exact H|].
  exact (extension_with_unknown_field_is_rejected
           [(py "functionAnchor", PInt 1); (py "name", PStr (py "and"));
            (py "comment", PNone)] (py "comment") PNone initial_state eq_refl H).
Defined.

(** X9.  A function extension without [name], whose other fields are
    of the int kind and among [extensionUriReference] and
    [functionAnchor], is refused with the missing-key [KeyError]: the two
    optional fields fall back to their default, the third has none. *)
Theorem extension_without_name_is_rejected (items : list (pystr * pyval)) (st : state) :
  dict_get (py "name") items = None ->
  (forall k v, dict_get k items = Some v ->
     (k = py "extensionUriReference" \/ k = py "functionAnchor")
     /\ isinstance v TInt = true) ->
  Disas.emit_extension (PDict [(py "extensionFunction", PDict items)]) st
  = Raise (KeyError (py "missing required key name in function extension")).
Proof.
  intros Hname Hall.
  unfold Disas.emit_extension. unfold mbind at 1.
  cbn [lift OneOfMessageUnpacker.init OneOfMessageUnpacker.py_len length Nat.eqb negb].
  unfold mbind at 1.
  change (OneOfMessageUnpacker.handle (py "extensionFunction") (py "extensionFunction"))
    with true. cbn iota.
  assert (Hpop : forall key its,
    (forall k v, dict_get k its = Some v -> isinstance v TInt = true) ->
    exists r, pop (py "function extension") key TInt (Some (PInt 0)) (PDict its)
              = (Ok r, PDict (dict_del key its))).
  { intros key its Hints. unfold pop, obj_pop.
    destruct (dict_get key its) as [w|] eqn:E.
    - rewrite (Hints _ _ E). by eexists.
    - rewrite (UnpackerFacts.dict_del_absent _ _ E). by eexists. }
  set (its1 := dict_del (py "extensionUriReference") items).
  set (its2 := dict_del (py "functionAnchor") its1).
  assert (Hempty : its2 = []).
  { assert (Hk : dict_keys its2 = []).
    { unfold its2, its1. rewrite !UnpackerExtra.dict_keys_del.
      apply elem_of_nil_inv. intros k [Hk2 [Hk1 Hin]%list_elem_of_filter]%list_elem_of_filter.
      destruct (dict_get k items) as [w|] eqn:E.
      - destruct (Hall k w E) as [[-> | ->] _]; done.
      - by apply UnpackerExtra.dict_get_None_keys in E. }
    by destruct its2. }
  destruct (Hpop (py "extensionUriReference") items) as [r1 Hr1].
  { intros k w Hw. by apply (Hall k w). }
  destruct (Hpop (py "functionAnchor") its1) as [r2 Hr2].
  { intros k w Hw. destruct (decide (k = py "extensionUriReference")) as [->|Hne].
    - unfold its1 in Hw. by rewrite UnpackerFacts.dict_get_del in Hw.
    - unfold its1 in Hw. rewrite UnpackerExtra.dict_get_del_ne in Hw by done.
      by apply (Hall k w). }
  unfold Disas.unpack_extension, with_unpacker, bind.
  rewrite Hr1. fold its1. rewrite Hr2. fold its2. rewrite Hempty.
  reflexivity.
Qed.

Lemma extension_without_name_is_rejected_witness :
  dict_get (py "name") [(py "functionAnchor", PInt 1)] = None
  /\ Disas.emit_extension
       (PDict [(py "extensionFunction", PDict [(py "functionAnchor", PInt 1)])])
       initial_state
     = Raise (KeyError (py "missing required key name in function extension")).
Proof.
  split; [reflexivity|].
  apply (extension_without_name_is_rejected [(py "functionAnchor", PInt 1)] initial_state).
  - reflexivity.
  - intros k v. cbn [dict_get]. case_bool_decide as Hk; [|discriminate].
    intros [= <-]. split; [by right|reflexivity].
Defined.

(** ** Allocation *)

Module AllocatorExtra.
Import Ident Allocator AllocatorFacts.

Lemma pretty_N_char_digit y : is_digit (N_of_ascii (pretty_N_char y)) = true.
Proof. unfold pretty_N_char. by repeat case_match. Qed.

Lemma pretty_N_go_digits x : forall s,
  forallb is_digit (py s) = true -> forallb is_digit (py (pretty_N_go x s)) = true.
Proof.
  induction (N.lt_wf_0 x) as [x _ IH]. intros s Hs.
  destruct (decide (0 < x)%N) as [Hx|Hx].
  - rewrite pretty_N_go_step by done. apply IH; [by apply N.div_lt|].
    unfold py in *. cbn. by rewrite pretty_N_char_digit, Hs.
  - replace x with 0%N by lia. by rewrite pretty_N_go_0.
Qed.

Lemma str_of_N_digits i : forallb is_digit (str_of_N i) = true.
Proof.
  unfold str_of_N, pretty, pretty_N. destruct (decide (i = 0%N)); [done|].
  by apply pretty_N_go_digits.
Qed.

Lemma is_digit_word c : is_digit c = true -> is_word c = true.
Proof. unfold is_word. intros ->. by rewrite orb_true_r. Qed.

Lemma is_ident_app name t :
  is_ident name = true -> forallb is_word t = true -> is_ident (name ++ t) = true.
Proof.
  destruct name as [|c r]; [done|]. cbn. intros [-> Hr]%andb_true_iff Ht.
  by rewrite forallb_app, Hr, Ht.
Qed.

Lemma suffixed_is_ident name i :
  is_ident name = true -> is_ident (suffixed name i) = true.
Proof.
  intros H. unfold suffixed. apply is_ident_app; [done|].
  rewrite forallb_app. apply andb_true_iff. split; [done|].
  pose proof (str_of_N_digits i) as Hd. revert Hd.
  generalize (str_of_N i). induction l as [|c l IH]; [done|].
  cbn. intros [Hc Hl]%andb_true_iff. by rewrite (is_digit_word c Hc), IH.
Qed.

End AllocatorExtra.

(** X10.  For a valid identifier [uniquify] returns a valid identifier
    again, also when it had to add a suffix; the name was not in use, it
    is marked used, and nothing else of the state changes. *)
Theorem uniquify_returns_fresh_identifier (name : pystr) (st : state) :
  Ident.is_ident name = true ->
  exists r st',
    Allocator.uniquify name st = Ok (r, st')
    /\ Ident.is_ident r = true
    /\ (r ∉ used_names st)
    /\ used_names st' = {[r]} ∪ used_names st
    /\ output st' = output st
    /\ fn_lookup st' = fn_lookup st /\ typ_lookup st' = typ_lookup st
    /\ tv_lookup st' = tv_lookup st /\ uri_lookup st' = uri_lookup st.
Proof.
  intros Hid.
  destruct (AllocatorFacts.uniquify_spec name st Hid) as (r & Hr & Hfresh & Hnew & Hold).
  exists r, (add_used_name r st). split; [done|]. split; [|done].
  destruct (decide (name ∈ used_names st)) as [Hin|Hin].
  - destruct (Hold Hin) as (i & _ & -> & _). by apply AllocatorExtra.suffixed_is_ident.
  - by rewrite (Hnew Hin).
Qed.

Lemma uniquify_returns_fresh_identifier_witness :
  Ident.is_ident (py "rel_0") = true
  /\ exists r st',
    Allocator.uniquify (py "rel_0") initial_state = Ok (r, st')
    /\ Ident.is_ident r = true
    /\ (r ∉ used_names initial_state)
    /\ used_names st' = {[r]} ∪ used_names initial_state
    /\ output st' = output initial_state
    /\ fn_lookup st' = fn_lookup initial_state /\ typ_lookup st' = typ_lookup initial_state
    /\ tv_lookup st' = tv_lookup initial_state /\ uri_lookup st' = uri_lookup initial_state.
Proof.
  split; [reflexivity|].
  apply (uniquify_returns_fresh_identifier (py "rel_0") initial_state). reflexivity.
Defined.

(** ** Serialization *)

Module SerializerExtra.
Import Allocator Serializer Trace TraceFacts Props.

Lemma behavior_subtree_key key val hint :
  behavior_of key val = subtree hint -> key = py "input".
Proof.
  unfold behavior_of. repeat case_bool_decide; try discriminate. done.
Qed.


Lemma inline_recurse ref val indent' (rest : list pystr -> M (list pystr)) retval st :
  (forall st, exists text, dfs_helper ref val indent' st = Ok (text, st)) ->
  (forall retval st, exists r, rest retval st = Ok (r, st)) ->
  exists r, mbind (dfs_helper ref val indent') (fun s => rest (retval ++ [s])) st
            = Ok (r, st).
Proof.
  intros Hval Hrest. destruct (Hval st) as [text Ht].
  destruct (Hrest (retval ++ [text]) st) as [r Hr].
  exists r. unfold mbind. by rewrite Ht.
Qed.

Lemma dict_loop_inline ref indent items :
  Forall (fun kv => inline_ok ref kv.2) items ->
  hoist_free_entries hoist_free items = true ->
  forall first retval st,
    exists r, dict_loop (dfs_helper ref) ref indent items first retval st = Ok (r, st).
Proof.
  induction 1 as [|[key val] rest Hval _ IH]; intros Hfree first retval st.
  - by exists retval.
  - cbn [hoist_free_entries] in Hfree.
    apply andb_true_iff in Hfree as [[Hkey Hv]%andb_true_iff Hrest].
    cbn [snd] in Hval. specialize (Hval Hv). specialize (IH Hrest).
    rewrite dict_loop_cons. cbn zeta.
    destruct (behavior_of key val) as [t|hint|] eqn:Hb.
    + destruct (isinstance val TInt); [apply IH|].
      apply inline_recurse; [intros; apply Hval|intros; apply IH].
    + apply behavior_subtree_key in Hb as ->.
      rewrite bool_decide_eq_true_2 in Hkey by done. cbn [andb] in Hkey.
      apply negb_true_iff in Hkey. rewrite Hkey.
      apply inline_recurse; [intros; apply Hval|intros; apply IH].
    + apply inline_recurse; [intros; apply Hval|intros; apply IH].
Qed.

Lemma list_loop_inline ref indent items :
  Forall (inline_ok ref) items ->
  forallb hoist_free items = true ->
  forall first retval st,
    exists r, list_loop (dfs_helper ref) indent items first retval st = Ok (r, st).
Proof.
  induction 1 as [|val rest Hval _ IH]; intros Hfree first retval st.
  - by exists retval.
  - cbn [forallb] in Hfree. apply andb_true_iff in Hfree as [Hv Hrest].
    specialize (Hval Hv). specialize (IH Hrest).
    rewrite list_loop_cons.
    apply inline_recurse; [intros; apply Hval|intros; apply IH].
Qed.

Lemma dfs_helper_inline ref node : inline_ok ref node.
Proof.
  induction node as [| | | | |items IH|items IH] using pyval_nested_ind;
    try (by intros _ indent st; eexists).
  - intros Hfree indent st. rewrite dfs_helper_list.
    destruct (list_loop_inline ref indent items IH Hfree true [py "["] st) as [r Hr].
    unfold mbind. rewrite Hr. by eexists.
  - intros Hfree indent st. rewrite dfs_helper_dict.
    destruct (dict_loop_inline ref indent items IH Hfree true [py "{"] st) as [r Hr].
    unfold mbind. rewrite Hr. by eexists.
Qed.

(** *** The lookup tables are read only *)

Lemma same_tables_refl st : same_tables st st.
Proof. by repeat split. Qed.

Lemma same_tables_trans st1 st2 st3 :
  same_tables st1 st2 -> same_tables st2 st3 -> same_tables st1 st3.
Proof.
  intros (?&?&?&?) (?&?&?&?). repeat split; congruence.
Qed.

Lemma uniquify_tables name st r st' :
  uniquify name st = Ok (r, st') -> same_tables st st'.
Proof.
  unfold uniquify. destruct (negb _); [done|].
  destruct (bool_decide _); [by intros [= _ <-]|].
  destruct (uniquify_loop _ _ _ _); [|done]. by intros [= _ <-].
Qed.

Lemma output_append_tables stmt st u st' :
  output_append stmt st = Ok (u, st') -> same_tables st st'.
Proof. by intros [= _ <-]. Qed.


Lemma tables_recurse ref val indent' (rest : list pystr -> M (list pystr)) retval st r st' :
  tables_ok ref val ->
  (forall retval st r st', rest retval st = Ok (r, st') -> same_tables st st') ->
  mbind (dfs_helper ref val indent') (fun s => rest (retval ++ [s])) st = Ok (r, st') ->
  same_tables st st'.
Proof.
  intros Hval Hrest. unfold mbind.
  destruct (dfs_helper ref val indent' st) as [[text st1]|e] eqn:E; [|done].
  intros H. eapply same_tables_trans; [by eapply Hval|by eapply Hrest].
Qed.

Lemma dict_loop_tables ref indent items :
  Forall (fun kv => tables_ok ref kv.2) items ->
  forall first retval st r st',
    dict_loop (dfs_helper ref) ref indent items first retval st = Ok (r, st') ->
    same_tables st st'.
Proof.
  induction 1 as [|[key val] rest Hval _ IH]; intros first retval st r st'.
  - intros [= _ <-]. apply same_tables_refl.
  - cbn [snd] in Hval. rewrite dict_loop_cons. cbn zeta.
    destruct (behavior_of key val) as [t|hint|].
    + destruct (isinstance val TInt); [apply IH|].
      apply tables_recurse; [done|intros ????; apply IH].
    + destruct (isinstance val TDict).
      * unfold mbind at 1.
        destruct (dfs_helper ref val [] st) as [[sub st1]|e] eqn:E1; [|done].
        unfold mbind at 1.
        destruct (uniquify _ st1) as [[subref st2]|e] eqn:E2; [|done].
        unfold mbind at 1.
        destruct (output_append _ st2) as [[u st3]|e] eqn:E3; [|done].
        intros H. apply Hval in E1. apply uniquify_tables in E2.
        apply output_append_tables in E3. apply IH in H.
        eauto using same_tables_trans.
      * apply tables_recurse; [done|intros ????; apply IH].
    + apply tables_recurse; [done|intros ????; apply IH].
Qed.

Lemma list_loop_tables ref indent items :
  Forall (tables_ok ref) items ->
  forall first retval st r st',
    list_loop (dfs_helper ref) indent items first retval st = Ok (r, st') ->
    same_tables st st'.
Proof.
  induction 1 as [|val rest Hval _ IH]; intros first retval st r st'.
  - intros [= _ <-]. apply same_tables_refl.
  - rewrite list_loop_cons. apply tables_recurse; [done|intros ????; apply IH].
Qed.

Lemma dfs_helper_tables ref node : tables_ok ref node.
Proof.
  induction node as [| | | | |items IH|items IH] using pyval_nested_ind;
    try (by intros indent st text st' [= _ <-]; apply same_tables_refl).
  - intros indent st text st'. rewrite dfs_helper_list. unfold mbind.
    destruct (list_loop _ _ _ _ _ st) as [[r st1]|e] eqn:E; [|done].
    intros [= _ <-]. by eapply list_loop_tables.
  - intros indent st text st'. rewrite dfs_helper_dict. unfold mbind.
    destruct (dict_loop _ _ _ _ _ _ st) as [[r st1]|e] eqn:E; [|done].
    intros [= _ <-]. by eapply dict_loop_tables.
Qed.

End SerializerExtra.

(** X11.  A value in which no mapping stands under a key [input] is
    rendered in place at any depth: the serializer returns its text and
    leaves the state as it was, with no statement emitted and no name
    allocated. *)
Theorem tree_without_input_mapping_is_inlined (ref : pystr) (node : pyval)
    (indent : pystr) (st : state) :
  hoist_free node = true ->
  exists text, Serializer.dfs_helper ref node indent st = Ok (text, st).
Proof. intros H. by apply SerializerExtra.dfs_helper_inline. Qed.

Lemma tree_without_input_mapping_is_inlined_witness :
  hoist_free (PDict [(py "read", PDict [(py "input", PInt 3);
                                        (py "names", PList [PStr (py "t")])])]) = true
  /\ exists text,
       Serializer.dfs_helper (py "rel_0")
         (PDict [(py "read", PDict [(py "input", PInt 3);
                                    (py "names", PList [PStr (py "t")])])])
         [] initial_state
       = Ok (text, initial_state).
Proof.
  split; [reflexivity|].
  apply (tree_without_input_mapping_is_inlined (py "rel_0")
           (PDict [(py "read", PDict [(py "input", PInt 3);
                                      (py "names", PList [PStr (py "t")])])])
           [] initial_state).
  reflexivity.
Defined.

(** X12.  [emit_raw_json] returns on every value; it only appends to
    the output, at least the statement of the tree itself, it only adds
    to the names in use, and it leaves the four lookup tables as they
    were. *)
Theorem emit_raw_json_frame (ref : pystr) (data : pyval) (st : state) :
  exists st' new,
    Serializer.emit_raw_json ref data st = Ok (tt, st')
    /\ output st' = output st ++ new
    /\ new <> []
    /\ used_names st ⊆ used_names st'
    /\ same_tables st st'.
Proof.
  destruct (TraceFacts.dfs_traced_ok ref data [] st)
    as (root & refs & st1 & bs & _ & Hp & [Ho _ _ Hu _ _] & _).
  pose proof (SerializerExtra.dfs_helper_tables ref data [] st root st1 Hp) as Ht.
  eexists _, ((Trace.statement_of <$> bs) ++ [Serializer.raw_statement ref root]).
  split; [|split; [|split; [|split]]].
  - unfold Serializer.emit_raw_json, mbind. rewrite Hp. reflexivity.
  - cbn [output]. by rewrite Ho, app_assoc.
  - by destruct (Trace.statement_of <$> bs).
  - cbn [used_names]. rewrite Hu. apply union_subseteq_r.
  - exact Ht.
Qed.

(** ** Declarations and relations *)

Module DriverExtra.
Import Allocator Serializer Disas Props.

Lemma uniquify_ident_ok components st :
  exists ref, uniquify (Ident.make_ident components) st = Ok (ref, add_used_name ref st)
    /\ (ref ∉ used_names st)
    /\ Shapes.allocated (fun x => x ∈ used_names st) (Ident.make_ident components) ref.
Proof.
  destruct (AllocatorFacts.uniquify_spec (Ident.make_ident components) st)
    as (r & Hr & Hfresh & Hnew & Hold).
  - apply IdentFacts.canonical_is_ident, IdentFacts.make_ident_canonical.
  - exists r. split; [done|]. split; [done|]. by split.
Qed.

End DriverExtra.

(** X13.  Declaring a function extension with a non-negative anchor
    appends one [function] statement, with the name quoted when it is not
    an identifier, and records the symbol under the anchor; a
    [functionReference] to that anchor is then rendered as the symbol.
    The symbol is allocated from the prefix [fn] and the name, with the
    operator names replaced by words. *)
Theorem declared_function_is_substituted (anchor : Z) (name ref' indent : pystr)
    (st : state) :
  (0 <= anchor)%Z ->
  exists ref st',
    Disas.emit_extension (function_extension anchor name) st = Ok (tt, st')
    /\ Shapes.allocated (fun x => x ∈ used_names st)
         (Ident.make_ident [py "fn"; Disas.ref_name_of name]) ref
    /\ output st' = output st ++
         [py "function " ++ ref ++ py " = "
          ++ (if Ident.is_ident name then name else Literal.make_string name)
          ++ py " = " ++ str_of_Z anchor ++ [59; 10]%N]
    /\ fn_lookup st' !! anchor = Some ref
    /\ Serializer.dfs_helper ref' (PDict [(py "functionReference", PInt anchor)])
         indent st'
       = Ok (concat_str
               [py "{";
                [10%N] ++ indent ++ py "  "
                ++ Literal.make_string (py "functionReference") ++ py ": ";
                ref;
                [10%N] ++ indent ++ py "}"], st').
Proof.
  intros Ha.
  destruct (DriverExtra.uniquify_ident_ok [py "fn"; Disas.ref_name_of name] st)
    as (ref & Hu & Hfresh & Halloc).
  eexists ref, _. split; [|split; [exact Halloc|]].
  - unfold Disas.emit_extension, function_extension.
    unfold mbind at 1. cbn [lift OneOfMessageUnpacker.init OneOfMessageUnpacker.py_len
      length Nat.eqb negb].
    unfold mbind at 1.
    change (OneOfMessageUnpacker.handle (py "extensionFunction") (py "extensionFunction"))
      with true. cbn iota.
    change (Disas.unpack_extension (py "function extension") (py "functionAnchor")
              (PDict [(py "extensionUriReference", PInt 0);
                      (py "functionAnchor", PInt anchor); (py "name", PStr name)]))
      with (Ok (PInt 0, PInt anchor, PStr name)).
    cbn [rbind lift]. unfold Disas.illegal_anchor. cbn [isinstance type_of negb orb int_value].
    rewrite (proj2 (Z.ltb_ge anchor 0) Ha).
    unfold mbind at 1. cbn [Disas.str_value]. rewrite Hu.
    cbn [int_value Z.eqb]. unfold mbind, output_append, Disas.set_lookup. reflexivity.
  - cbn [output fn_lookup int_value add_used_name].
    split; [|split].
    + destruct (Ident.is_ident name); reflexivity.
    + apply lookup_insert_eq.
    + rewrite TraceFacts.dfs_helper_dict, TraceFacts.dict_loop_cons. cbn zeta.
      change (Serializer.behavior_of (py "functionReference") (PInt anchor))
        with (Serializer.extension_ref Serializer.FnTable).
      cbn [isinstance type_of]. unfold mbind. cbn [Serializer.dict_loop mret].
      unfold Serializer.resolve.
      cbn [Serializer.table_of fn_lookup int_value]. rewrite lookup_insert_eq.
      cbn [default]. reflexivity.
Qed.

Lemma declared_function_is_substituted_witness :
  (0 <= 2)%Z
  /\ exists ref st',
    Disas.emit_extension (function_extension 2 (py "*")) initial_state = Ok (tt, st')
    /\ Shapes.allocated (fun x => x ∈ used_names initial_state)
         (Ident.make_ident [py "fn"; Disas.ref_name_of (py "*")]) ref
    /\ output st' = output initial_state ++
         [py "function " ++ ref ++ py " = "
          ++ (if Ident.is_ident (py "*") then py "*" else Literal.make_string (py "*"))
          ++ py " = " ++ str_of_Z 2 ++ [59; 10]%N]
    /\ fn_lookup st' !! 2%Z = Some ref
    /\ Serializer.dfs_helper (py "rel_0") (PDict [(py "functionReference", PInt 2)])
         [] st'
       = Ok (concat_str
               [py "{";
                [10%N] ++ [] ++ py "  "
                ++ Literal.make_string (py "functionReference") ++ py ": ";
                ref;
                [10%N] ++ [] ++ py "}"], st').
Proof.
  split; [lia|].
  apply (declared_function_is_substituted 2 (py "*") (py "rel_0") [] initial_state).
  lia.
Defined.

(** X14.  A function extension with a negative anchor is refused with
    the illegal-anchor [TypeError], which quotes the anchor. *)
Theorem negative_anchor_is_rejected (anchor : Z) (name : pystr) (st : state) :
  (anchor < 0)%Z ->
  Disas.emit_extension (function_extension anchor name) st
  = Raise (TypeError (py "illegal function anchor value " ++ str_of_Z anchor)).
Proof.
  intros Ha. unfold Disas.emit_extension, function_extension.
  unfold mbind at 1. cbn [lift OneOfMessageUnpacker.init OneOfMessageUnpacker.py_len
    length Nat.eqb negb].
  unfold mbind at 1.
  change (OneOfMessageUnpacker.handle (py "extensionFunction") (py "extensionFunction"))
    with true. cbn iota.
  change (Disas.unpack_extension (py "function extension") (py "functionAnchor")
            (PDict [(py "extensionUriReference", PInt 0);
                    (py "functionAnchor", PInt anchor); (py "name", PStr name)]))
    with (Ok (PInt 0, PInt anchor, PStr name)).
  cbn [rbind lift]. unfold Disas.illegal_anchor. cbn [isinstance type_of negb orb int_value].
  rewrite (proj2 (Z.ltb_lt anchor 0) Ha). unfold mraise.
  destruct anchor; try lia. reflexivity.
Qed.

Lemma negative_anchor_is_rejected_witness :
  (-1 < 0)%Z
  /\ Disas.emit_extension (function_extension (-1) (py "and")) initial_state
     = Raise (TypeError (py "illegal function anchor value " ++ str_of_Z (-1))).
Proof.
  split; [lia|].
  apply (negative_anchor_is_rejected (-1) (py "and") initial_state). lia.
Defined.

(** X15.  An entry of [extensions] that is a dict with no key, with
    several keys, or with a single key that is none of the three variants
    is refused with a [ValueError]. *)
Theorem malformed_extension_is_rejected (items : list (pystr * pyval)) (st : state) :
  (forall val, items <> [(py "extensionFunction", val)])
  -> (forall val, items <> [(py "extensionType", val)])
  -> (forall val, items <> [(py "extensionTypeVariation", val)])
  -> exists msg, Disas.emit_extension (PDict items) st = Raise (ValueError msg).
Proof.
  intros Hf Ht Hv. unfold Disas.emit_extension. unfold mbind at 1.
  destruct items as [|[key val] [|kv2 rest]].
  - by eexists.
  - cbn [lift OneOfMessageUnpacker.init OneOfMessageUnpacker.py_len length Nat.eqb negb].
    unfold mbind at 1. unfold OneOfMessageUnpacker.handle.
    rewrite !bool_decide_eq_false_2; [by eexists|..].
    + intros ->. by apply (Hv val).
    + intros ->. by apply (Ht val).
    + intros ->. by apply (Hf val).
  - by eexists.
Qed.

Lemma malformed_extension_is_rejected_witness :
  exists msg,
    Disas.emit_extension
      (PDict [(py "extensionFunction", PDict []); (py "extensionType", PDict [])])
      initial_state
    = Raise (ValueError msg).
Proof.
  apply (malformed_extension_is_rejected
           [(py "extensionFunction", PDict []); (py "extensionType", PDict [])]
           initial_state); intros val H; discriminate H.
Defined.

Module RelationExtra.
Import Allocator Serializer Disas Props.

Lemma emit_relation_rel_ok index payload st :
  exists ref hoisted root st',
    emit_relation index (rel_relation payload) st = Ok (tt, st')
    /\ output st' = output st ++ [relation_header index] ++ hoisted
         ++ [raw_statement ref root; py "execute " ++ ref ++ [59; 10]%N]
    /\ Shapes.allocated (fun x => x ∈ used_names st)
         (Ident.make_ident [py "rel"; str_of_N index]) ref
    /\ same_tables st st'.
Proof.
  unfold emit_relation, rel_relation.
  unfold mbind at 1. cbn [output_append].
  set (st0 := mkState _ _ _ _ _ _).
  unfold mbind at 1. cbn [lift OneOfMessageUnpacker.init OneOfMessageUnpacker.py_len
    length Nat.eqb negb].
  unfold mbind at 1.
  change (OneOfMessageUnpacker.handle (py "rel") (py "root")) with false.
  change (OneOfMessageUnpacker.handle (py "rel") (py "rel")) with true.
  cbn [lift].
  destruct (DriverExtra.uniquify_ident_ok [py "rel"; str_of_N index] st0)
    as (ref & Hu & Hfresh & Halloc).
  unfold mbind at 1. rewrite Hu.
  destruct (TraceFacts.dfs_traced_ok ref payload [] (add_used_name ref st0))
    as (root & refs & st1 & bs & _ & Hp & [Ho _ _ _ _ _] & _).
  pose proof (SerializerExtra.dfs_helper_tables ref payload [] _ root st1 Hp) as Ht.
  exists ref, (Trace.statement_of <$> bs), root. eexists.
  split; [|split; [|split]].
  - unfold mbind at 1. unfold emit_raw_json. unfold mbind at 1. rewrite Hp.
    unfold output_append. cbn [mbind]. unfold mbind. reflexivity.
  - cbn [output]. rewrite Ho. cbn [output add_used_name st0].
    unfold relation_header. rewrite <- !app_assoc. reflexivity.
  - exact Halloc.
  - destruct Ht as (?&?&?&?). by repeat split.
Qed.

Lemma emit_relations_rel_ok payloads : forall index st,
  exists st',
    for_each_indexed index (rel_relation <$> payloads) emit_relation st = Ok (tt, st')
    /\ same_tables st st'
    /\ length (output st') >= length (output st) + 3 * length payloads.
Proof.
  induction payloads as [|p payloads IH]; intros index st.
  - exists st. split; [done|]. split; [by repeat split|]. cbn. lia.
  - destruct (emit_relation_rel_ok index p st)
      as (ref & hoisted & root & st1 & Hr & Ho & _ & Ht).
    destruct (IH (index + 1)%N st1) as (st' & Hrest & Ht' & Hlen).
    exists st'. split; [|split].
    + cbn [fmap list_fmap for_each_indexed]. unfold mbind. rewrite Hr. exact Hrest.
    + destruct Ht as (?&?&?&?), Ht' as (?&?&?&?). repeat split; congruence.
    + rewrite Ho in Hlen. rewrite !length_app in Hlen. cbn [length] in *. lia.
Qed.

End RelationExtra.

(** X16.  A relation of the [rel] variant is emitted for every payload
    and in every state: the comment line, the hoisted bindings, the
    binding of the tree under a symbol allocated from [rel] and the
    index, and an [execute] statement of that symbol without a name
    list; the lookup tables stay as they were. *)
Theorem rel_relation_emits_raw_and_execute (index : N) (payload : pyval) (st : state) :
  exists ref hoisted root st',
    Disas.emit_relation index (rel_relation payload) st = Ok (tt, st')
    /\ output st' = output st ++ [relation_header index] ++ hoisted
         ++ [Serializer.raw_statement ref root; py "execute " ++ ref ++ [59; 10]%N]
    /\ Shapes.allocated (fun x => x ∈ used_names st)
         (Ident.make_ident [py "rel"; str_of_N index]) ref
    /\ same_tables st st'.
Proof. apply RelationExtra.emit_relation_rel_ok. Qed.

(** X17.  [disas] returns on every plan that holds only relations of the
    [rel] variant, whatever their payloads: the text is the output of the
    loop over the relations, which holds at least three statements per
    relation. *)
Theorem disas_accepts_rel_relations (payloads : list pyval) :
  exists st',
    Disas.for_each_indexed 0 (rel_relation <$> payloads) Disas.emit_relation
      initial_state = Ok (tt, st')
    /\ Disas.disas (PDict [(py "relations", PList (rel_relation <$> payloads))])
       = Ok (concat_str (output st'))
    /\ length (output st') >= 3 * length payloads.
Proof.
  destruct (RelationExtra.emit_relations_rel_ok payloads 0 initial_state)
    as (st' & Hrun & _ & Hlen).
  exists st'. split; [done|]. split; [|exact Hlen].
  unfold Disas.disas.
  change (Disas.unpack_plan (PDict [(py "relations", PList (rel_relation <$> payloads))]))
    with (Ok (PList [], PList [], PList (rel_relation <$> payloads), PDict [], PList [])).
  cbn [rbind].
  change (Disas.unpack_advanced_extensions (PDict [])) with (Ok (PDict [], PDict [])).
  cbn [rbind]. unfold Disas.emit_extensions, Disas.emit_proto_extensions.
  cbn [truthy]. rewrite !bool_decide_eq_true_2 by done. cbn [negb orb].
  unfold mbind at 1. unfold mbind at 1. cbn [mret Disas.list_items].
  by rewrite Hrun.
Qed.

Module RootExtra.
Import Disas.

Lemma check_names_first_bad strs v rest :
  Forall (fun n => isinstance n TStr = true) strs ->
  isinstance v TStr = false ->
  check_names (strs ++ v :: rest)
  = Raise (TypeError (py "relation root relation names must be strings, found "
                      ++ type_repr (type_of v))).
Proof.
  intros Hs Hv. induction Hs as [|n strs Hn _ IH].
  - cbn [app check_names]. by rewrite Hv.
  - cbn [app check_names]. by rewrite Hn.
Qed.

Lemma check_names_all_strings names :
  Forall (fun n => isinstance n TStr = true) names -> check_names names = Ok tt.
Proof.
  induction 1 as [|n names Hn _ IH]; [done|]. cbn [check_names]. by rewrite Hn.
Qed.
End RootExtra.

(** X18.  A [root] relation whose [input] is an int and whose [names]
    hold a value that is not a string is refused with the [TypeError] that
    quotes the type of the first such value. *)
Theorem root_relation_rejects_non_string_name (index : N) (input : Z)
    (strs : list pyval) (v : pyval) (rest : list pyval) (st : state) :
  Forall (fun n => isinstance n TStr = true) strs ->
  isinstance v TStr = false ->
  Disas.emit_relation index (root_relation input (strs ++ v :: rest)) st
  = Raise (TypeError (py "relation root relation names must be strings, found "
                      ++ type_repr (type_of v))).
Proof.
  intros Hs Hv. unfold Disas.emit_relation, root_relation.
  unfold mbind at 1. cbn [output_append].
  unfold mbind at 1. cbn [lift OneOfMessageUnpacker.init OneOfMessageUnpacker.py_len
    length Nat.eqb negb].
  unfold mbind at 1.
  change (OneOfMessageUnpacker.handle (py "root") (py "root")) with true. cbn iota.
  unfold MessageUnpacker.with_unpacker, MessageUnpacker.bind.
  change (MessageUnpacker.pop (py "relation root") (py "input") TInt (Some (PInt 0))
            (PDict [(py "input", PInt input); (py "names", PList (strs ++ v :: rest))]))
    with (Ok (PInt input), PDict [(py "names", PList (strs ++ v :: rest))]).
  cbn iota.
  change (MessageUnpacker.pop (py "relation root") (py "names") TList (Some (PInt 0))
            (PDict [(py "names", PList (strs ++ v :: rest))]))
    with (Ok (PList (strs ++ v :: rest)), PDict []).
  cbn iota. cbn [Disas.list_items].
  rewrite (RootExtra.check_names_first_bad strs v rest Hs Hv). reflexivity.
Qed.

Lemma root_relation_rejects_non_string_name_witness :
  Forall (fun n => isinstance n TStr = true) [PStr (py "a")]
  /\ isinstance (PInt 1) TStr = false
  /\ Disas.emit_relation 0 (root_relation 0 ([PStr (py "a")] ++ PInt 1 :: []))
       initial_state
     = Raise (TypeError (py "relation root relation names must be strings, found "
                         ++ type_repr (type_of (PInt 1)))).
Proof.
  assert (H : Forall (fun n => isinstance n TStr = true) [PStr (py "a")])
    by (repeat constructor).
  split; [exact H|]. split; [reflexivity|].
  exact (root_relation_rejects_non_string_name 0 0 [PStr (py "a")] (PInt 1) []
           initial_state H eq_refl).
Defined.

Module ProtoExtra.
Import Disas Props.

Lemma for_each_urls urls : forall st,
  exists st',
    for_each (PStr <$> urls) (fun expected_type_url =>
      mbind (lift (make_string_any expected_type_url)) (fun url =>
        output_append (py "proto_extension " ++ url ++ [59; 10]%N))) st
    = Ok (tt, st')
    /\ output st' = output st ++ (proto_extension_statement <$> urls)
    /\ used_names st' = used_names st /\ same_tables st st'.
Proof.
  induction urls as [|u urls IH]; intros st.
  - exists st. cbn. rewrite app_nil_r. by repeat split.
  - cbn [fmap list_fmap for_each]. unfold mbind at 1. unfold mbind at 1.
    cbn [lift make_string_any output_append].
    set (st1 := mkState _ _ _ _ _ _).
    destruct (IH st1) as (st' & Hr & Ho & Hu & Ht).
    exists st'. rewrite Hr. split; [done|]. split; [|split].
    + rewrite Ho. cbn [output st1]. by rewrite <- app_assoc.
    + by rewrite Hu.
    + destruct Ht as (?&?&?&?). by repeat split.
Qed.
End ProtoExtra.

(** X19.  With no enhancement and no optimization, a non-empty list of
    expected type URLs that are strings gives the banner comment and one
    [proto_extension] statement per URL, in order; names in use and
    lookup tables stay as they were. *)
Theorem expected_type_urls_are_declared (url : pystr) (urls : list pystr) (st : state) :
  exists st',
    Disas.emit_proto_extensions (PDict []) (PDict []) (PList (PStr <$> url :: urls)) st
    = Ok (tt, st')
    /\ output st' = output st ++ [[10%N] ++ py "// Protobuf extensions" ++ [10%N]]
         ++ (proto_extension_statement <$> url :: urls)
    /\ used_names st' = used_names st
    /\ same_tables st st'.
Proof.
  unfold Disas.emit_proto_extensions. cbn [truthy orb fmap list_fmap].
  rewrite bool_decide_eq_false_2 by done. cbn [negb].
  unfold mbind at 1. cbn [output_append].
  set (st0 := mkState _ _ _ _ _ _).
  destruct (ProtoExtra.for_each_urls (url :: urls) st0) as (st' & Hr & Ho & Hu & Ht).
  exists st'. split; [|split; [|split]].
  - unfold mbind at 1. cbn [Disas.list_items].
    change (PStr url :: (PStr <$> urls)) with (PStr <$> url :: urls).
    rewrite Hr. reflexivity.
  - rewrite Ho. cbn [output st0]. by rewrite <- app_assoc.
  - by rewrite Hu.
  - destruct Ht as (?&?&?&?). by repeat split.
Qed.
